(** * Spending Analyzer (src/app.py): table loading and budget evaluation

    A shallow embedding of the Streamlit script [app.py]: the file loader
    [load_table], the normalisation of the loaded table, the net total and
    the budgeting section with its keyword rules.

    Conventions of the embedding.
    - A Python [str] is a list of Unicode code points ([N]); [bytes] is a
      list of [Byte.byte].
    - Python floats are abstracted by exact rationals ([Q]); rounding of
      binary64 arithmetic is not modelled.  Equality of amounts is [Qeq].
    - A call that may raise returns a [result]; a model that covers only a
      part of a library's input language returns [option (result _)], where
      [None] says that the input lies outside the modelled part.
    - Library routines whose behaviour is a large table or algorithm of
      their own (codecs, the csv sniffer, the pandas readers, Unicode case
      mapping, the regular-expression engine) are parameters of a Section;
      concrete instances are given for the inputs the script bundles. *)

From Stdlib Require Import List String Ascii NArith ZArith QArith Qminmax Bool Lia.
From Stdlib.Strings Require Import Byte.
Import ListNotations.

(* ================================================================== *)
(** ** Python text *)

Definition str := list N.

(** A literal of the source, as code points. *)
Definition lit (s : string) : str := map N_of_ascii (list_ascii_of_string s).

Fixpoint str_eqb (a b : str) : bool :=
  match a, b with
  | [], [] => true
  | x :: a', y :: b' => (x =? y)%N && str_eqb a' b'
  | _, _ => false
  end.

(** [str.isspace] on one code point. *)
Definition isspace (c : N) : bool :=
  (((9 <=? c) && (c <=? 13)) || ((28 <=? c) && (c <=? 32))
   || (c =? 133) || (c =? 160) || (c =? 5760)
   || ((8192 <=? c) && (c <=? 8202))
   || (c =? 8232) || (c =? 8233) || (c =? 8239) || (c =? 8287)
   || (c =? 12288))%N.

Fixpoint lstrip (s : str) : str :=
  match s with
  | [] => []
  | c :: t => if isspace c then lstrip t else s
  end.

Definition rstrip (s : str) : str := rev (lstrip (rev s)).

(** [s.strip()] *)
Definition strip (s : str) : str := rstrip (lstrip s).

(** [s.split(sep)] for a one-character separator. *)
Fixpoint split (sep : N) (s : str) : list str :=
  match s with
  | [] => [[]]
  | c :: t =>
      if (c =? sep)%N then [] :: split sep t
      else match split sep t with
           | [] => [[c]]
           | h :: r => (c :: h) :: r
           end
  end.

(** [sep.join(parts)] *)
Fixpoint join (sep : str) (parts : list str) : str :=
  match parts with
  | [] => []
  | [p] => p
  | p :: rest => p ++ sep ++ join sep rest
  end.

(** Line boundaries of [str.splitlines]: \n \v \f \x1c \x1d \x1e \x85
    U+2028 U+2029; \r and \r\n are handled in [splitlines_from]. *)
Definition is_linebreak (c : N) : bool :=
  ((c =? 10) || (c =? 11) || (c =? 12) || (c =? 28) || (c =? 29)
   || (c =? 30) || (c =? 133) || (c =? 8232) || (c =? 8233))%N.

(** [cur] holds the current line, reversed. *)
Fixpoint splitlines_from (cur : str) (t : str) : list str :=
  match t with
  | [] => match cur with [] => [] | _ => [rev cur] end
  | c :: t' =>
      if (c =? 13)%N then
        match t' with
        | d :: t'' =>
            if (d =? 10)%N then rev cur :: splitlines_from [] t''
            else rev cur :: splitlines_from [] t'
        | [] => rev cur :: splitlines_from [] t'
        end
      else if is_linebreak c then rev cur :: splitlines_from [] t'
      else splitlines_from (c :: cur) t'
  end.

(** [text.splitlines()] *)
Definition splitlines (text : str) : list str := splitlines_from [] text.

Fixpoint startswith (s p : str) : bool :=
  match p, s with
  | [], _ => true
  | x :: p', y :: s' => (x =? y)%N && startswith s' p'
  | _ :: _, [] => false
  end.

(** [s.endswith(p)] *)
Definition endswith (s p : str) : bool := startswith (rev s) (rev p).

(** [k in s]: [k] occurs in [s] as a literal substring. *)
Fixpoint substring (k s : str) : bool :=
  startswith s k ||
  match s with
  | [] => false
  | _ :: s' => substring k s'
  end.

(** [str.lower] restricted to ASCII text. *)
Definition ascii_lower_char (c : N) : N :=
  if ((65 <=? c) && (c <=? 90))%N then (c + 32)%N else c.

Definition ascii_lower (s : str) : str := map ascii_lower_char s.

(* ================================================================== *)
(** ** Exceptions *)

Inductive exn : Type :=
| re_error            (* re.error, raised by re.compile *)
| ZeroDivisionError
| KeyError (label : str)
| AttributeError
| LibraryError (code : nat).  (* any other [Exception] raised in a library *)

Inductive result (A : Type) : Type :=
| Ok (a : A)
| Raise (e : exn).
Arguments Ok {A} a.
Arguments Raise {A} e.

(** [try: body  except Exception: handler].  Every exception of the model
    is an [Exception]; [st.stop()] is not modelled as one (see [script]). *)
Definition try_except {A} (body : result A) (handler : exn -> result A)
  : result A :=
  match body with
  | Ok a => Ok a
  | Raise e => handler e
  end.

(** Outcomes of a partially modelled computation. *)
Definition partial (A : Type) : Type := option (result A).

Definition pret {A} (a : A) : partial A := Some (Ok a).
Definition praise {A} (e : exn) : partial A := Some (Raise e).

Definition pbind {A B} (m : partial A) (f : A -> partial B) : partial B :=
  match m with
  | Some (Ok a) => f a
  | Some (Raise e) => Some (Raise e)
  | None => None
  end.

Notation "x <- m ;; k" := (pbind m (fun x => k))
  (at level 61, m at next level, right associativity).

Fixpoint pmap {A B} (f : A -> partial B) (l : list A) : partial (list B) :=
  match l with
  | [] => pret []
  | a :: l' => b <- f a ;; bs <- pmap f l' ;; pret (b :: bs)
  end.

(* ================================================================== *)
(** ** Tables (pandas DataFrame) *)

Record date : Type := { year : Z; month : Z; day : Z }.

(** A monthly period, [pd.Period(freq="M")]: year and month. *)
Definition period : Type := (Z * Z)%type.

Inductive cell : Type :=
| NaN                       (* missing value: NaN, NaT, None *)
| Text (s : str)
| Num (q : Q)
| Timestamp (d : date)
| Month (p : period).

(** Row-major table: every row holds one cell per column label. *)
Record DataFrame : Type := { columns : list str; rows : list (list cell) }.

(** [pd.DataFrame()] *)
Definition empty_frame : DataFrame := {| columns := []; rows := [] |}.

(** [df.empty]: some axis has length zero. *)
Definition df_empty (df : DataFrame) : bool :=
  match columns df, rows df with
  | [], _ => true
  | _, [] => true
  | _, _ => false
  end.

Fixpoint col_index (label : str) (cols : list str) : option nat :=
  match cols with
  | [] => None
  | c :: cols' =>
      if str_eqb c label then Some O
      else option_map S (col_index label cols')
  end.

(** [df[label]]; column labels are taken to be distinct. *)
Definition get_col (df : DataFrame) (label : str) : result (list cell) :=
  match col_index label (columns df) with
  | None => Raise (KeyError label)
  | Some i => Ok (map (fun r => nth i r NaN) (rows df))
  end.

Fixpoint replace_nth {A} (i : nat) (v : A) (l : list A) : list A :=
  match i, l with
  | _, [] => []
  | O, _ :: l' => v :: l'
  | S i', x :: l' => x :: replace_nth i' v l'
  end.

Fixpoint remove_nth {A} (i : nat) (l : list A) : list A :=
  match i, l with
  | _, [] => []
  | O, _ :: l' => l'
  | S i', x :: l' => x :: remove_nth i' l'
  end.

Fixpoint map2 {A B C} (f : A -> B -> C) (l : list A) (m : list B) : list C :=
  match l, m with
  | a :: l', b :: m' => f a b :: map2 f l' m'
  | _, _ => []
  end.

(** [df[label] = values]: overwrites the column when the label exists,
    appends a new last column otherwise. *)
Definition set_col (df : DataFrame) (label : str) (values : list cell)
  : DataFrame :=
  match col_index label (columns df) with
  | Some i =>
      {| columns := columns df;
         rows := map2 (fun r v => replace_nth i v r) (rows df) values |}
  | None =>
      {| columns := columns df ++ [label];
         rows := map2 (fun r v => r ++ [v]) (rows df) values |}
  end.

(** [df.drop(columns=[label], errors="ignore")] *)
Definition drop_col (df : DataFrame) (label : str) : DataFrame :=
  match col_index label (columns df) with
  | Some i =>
      {| columns := remove_nth i (columns df);
         rows := map (remove_nth i) (rows df) |}
  | None => df
  end.

Fixpoint select {A} (l : list A) (mask : list bool) : list A :=
  match l, mask with
  | a :: l', b :: mask' => if b then a :: select l' mask' else select l' mask'
  | _, _ => []
  end.

(** [df[mask]] for a boolean mask over the rows. *)
Definition filter_rows (df : DataFrame) (mask : list bool) : DataFrame :=
  {| columns := columns df; rows := select (rows df) mask |}.

(** [series.sum()]: missing values are skipped. *)
Fixpoint series_sum (s : list cell) : Q :=
  match s with
  | [] => 0
  | Num q :: s' => q + series_sum s'
  | _ :: s' => series_sum s'
  end.

Definition is_nan (c : cell) : bool :=
  match c with NaN => true | _ => false end.

(* ================================================================== *)
(** ** 1. The file loader, [load_table] *)

Definition bytes := list byte.

(** An uploaded file: its [name] attribute (which may be absent) and what
    [read()] returns. *)
Record UploadedFile : Type := { name : option str; read : bytes }.

(** What the script shows through [st.error], [st.info], [st.warning]. *)
Inductive st_call : Type :=
| st_error_excel (e : exn)   (* "Failed to read Excel: {e}" *)
| st_error_decode            (* "Could not decode file. Save as UTF-8 CSV and retry." *)
| st_error_parse             (* "Could not parse file. Check format or try sample." *)
| st_error_columns           (* "File must have columns: {required}" *)
| st_warning_no_dates        (* "No valid dates found to build budget months." *)
| st_info_no_expenses.       (* "No expenses found for this month." *)

(** [raw_bytes.decode("latin1")]: byte [b] is code point [b]; it accepts
    every byte sequence. *)
Definition decode_latin1 (raw : bytes) : result str :=
  Ok (map Byte.to_N raw).

(** The line is empty once stripped: the test of line 45, negated. *)
Definition blank_line (line : str) : bool := str_eqb (strip line) [].

(** The separators tried after the first parse has failed. *)
Definition trial_seps : list N := [44; 59; 9; 124]%N.   (* , ; \t | *)

Section Loader.

(** [str.lower] *)
Variable lower : str -> str.
(** [pd.read_excel] *)
Variable read_excel : UploadedFile -> result DataFrame.
(** [raw_bytes.decode("utf-8-sig")], [raw_bytes.decode("utf-8")] *)
Variable decode_utf_8_sig decode_utf_8 : bytes -> result str.
(** [csv.Sniffer().sniff(sample, delimiters=[",", ";", "\t", "|"]).delimiter] *)
Variable sniff : str -> result N.
(** [pd.read_csv(io.StringIO(text), sep=sep, engine="python")] *)
Variable read_csv : str -> option N -> result DataFrame.

(** The loop over the encodings: [text] stays [None] until a decoder
    succeeds, and the loop is left at the first success. *)
Fixpoint decode_loop (encs : list (bytes -> result str)) (raw_bytes : bytes)
  : option str :=
  match encs with
  | [] => None
  | decode :: encs' =>
      match decode raw_bytes with
      | Ok text => Some text
      | Raise _ => decode_loop encs' raw_bytes
      end
  end.

Definition encodings : list (bytes -> result str) :=
  [decode_utf_8_sig; decode_utf_8; decode_latin1].

(** Line 45: the lines that are empty or hold only white space are
    dropped and the others are joined with a newline again. *)
Definition stripped_of (text : str) : str :=
  join [10%N] (filter (fun line => negb (blank_line line)) (splitlines text)).

(** The [for trial_sep in ...] loop and the final [return pd.DataFrame()]. *)
Fixpoint fallbacks (stripped : str) (seps : list N) : result DataFrame :=
  match seps with
  | [] => Ok empty_frame
  | trial_sep :: seps' =>
      try_except (read_csv stripped (Some trial_sep))
                 (fun _ => fallbacks stripped seps')
  end.

(** The detected separator, [None] when the sniffer raises. *)
Definition sniffed_sep (stripped : str) : option N :=
  match sniff (firstn 4096 stripped) with
  | Ok delimiter => Some delimiter
  | Raise _ => None
  end.

(** Lines 45-65: everything after the decoding. *)
Definition parse_text (text : str) : result DataFrame :=
  let stripped := stripped_of text in
  let sep := sniffed_sep stripped in
  try_except (read_csv stripped sep)
             (fun _ => fallbacks stripped trial_seps).

Definition is_excel_name (f : UploadedFile) : bool :=
  let name := lower (match name f with Some n => n | None => [] end) in
  endswith name (lit ".xlsx") || endswith name (lit ".xls").

(** The messages shown and the value returned (or the exception that
    escapes). *)
Definition load_table (uploaded_file : option UploadedFile)
  : list st_call * result DataFrame :=
  match uploaded_file with
  | None => ([], Ok empty_frame)
  | Some f =>
      if is_excel_name f then
        match read_excel f with
        | Ok df => ([], Ok df)
        | Raise e => ([st_error_excel e], Ok empty_frame)
        end
      else
        match decode_loop encodings (read f) with
        | None => ([st_error_decode], Ok empty_frame)
        | Some text => ([], parse_text text)
        end
  end.

End Loader.

(* ================================================================== *)
(** ** 2. The bundled sample and a reader for plain comma-separated text *)

Definition sample_csv : str := lit "date,amount,description
2024-09-01,-85.20,Metro Groceries
2024-09-02,-18.70,UBER Ride
2024-09-03,2000.00,Payroll Deposit
2024-09-05,-120.00,Costco Wholesale
2024-09-09,-55.99,Cineplex Movies
2024-09-10,-15.99,Netflix Subscription
2024-09-12,-60.00,Shell Gas Station
2024-09-16,1500.00,Freelance Income
2024-09-19,-12.00,Spotify Premium
".

(** The strings [pd.read_csv] reads as missing values by default. *)
Definition na_values : list str :=
  [] :: map lit
    ["#N/A"; "#N/A N/A"; "#NA"; "-1.#IND"; "-1.#QNAN"; "-NaN"; "-nan";
     "1.#IND"; "1.#QNAN"; "<NA>"; "N/A"; "NA"; "NULL"; "NaN"; "None";
     "n/a"; "nan"; "null"]%string.

Definition field_cell (field : str) : cell :=
  if existsb (str_eqb field) na_values then NaN else Text field.

Fixpoint distinct (l : list str) : bool :=
  match l with
  | [] => true
  | x :: l' => negb (existsb (str_eqb x) l') && distinct l'
  end.

(** [pd.read_csv(io.StringIO(text))] with the default comma separator, on
    the part of its input language modelled here: no quote character and
    no carriage return, no line of white space only, a header of distinct
    non-empty labels, and as many fields in every record as in the header.
    Empty lines are skipped; an input without any line raises
    (EmptyDataError).  A cell keeps the text of its field: the type
    inference of the reader is accounted for in [to_numeric] and
    [to_datetime]. *)
Definition read_csv_plain (text : str) : partial DataFrame :=
  if existsb (fun c => (c =? 34) || (c =? 13))%N text then None
  else
    let lines := filter (fun l => negb (str_eqb l [])) (split 10 text) in
    if existsb (fun l => str_eqb (strip l) []) lines then None
    else
      match map (split 44) lines with
      | [] => praise (LibraryError 0)
      | header :: records =>
          if distinct header
             && negb (existsb (str_eqb []) header)
             && forallb (fun r => Nat.eqb (List.length r) (List.length header)) records
          then pret {| columns := header; rows := map (map field_cell) records |}
          else None
      end.

(* ================================================================== *)
(** ** 3. Normalisation of the loaded table and the net total *)

(** The script either goes on with a value or has called [st.stop()]
    after showing a message. *)
Inductive script (A : Type) : Type :=
| Continue (a : A)
| Stopped (shown : st_call).
Arguments Continue {A} a.
Arguments Stopped {A} shown.

Definition lift {A} (r : result A) : partial A := Some r.

Definition required : list str := map lit ["date"; "amount"; "description"]%string.

(** [required.issubset(df.columns)] *)
Definition has_required (df : DataFrame) : bool :=
  forallb (fun r => existsb (str_eqb r) (columns df)) required.

(** [df.dropna(subset=["date","amount"])] *)
Definition dropna_date_amount (df : DataFrame) : partial DataFrame :=
  dates <- lift (get_col df (lit "date")) ;;
  amounts <- lift (get_col df (lit "amount")) ;;
  pret (filter_rows df
          (map2 (fun d a => negb (is_nan d) && negb (is_nan a)) dates amounts)).

Section Normalise.

(** [str.lower] *)
Variable lower : str -> str.
(** [pd.to_datetime(column, errors="coerce")] and
    [pd.to_numeric(column, errors="coerce")], applied to the cells the
    reader produced. *)
Variable to_datetime to_numeric : list cell -> partial (list cell).

(** Lines 96-114. *)
Definition normalise (df : DataFrame) : partial (script DataFrame) :=
  if df_empty df then pret (Stopped st_error_parse)
  else
    let df := {| columns := map (fun c => lower (strip c)) (columns df);
                 rows := rows df |} in
    if negb (has_required df) then pret (Stopped st_error_columns)
    else
      date_in <- lift (get_col df (lit "date")) ;;
      date_out <- to_datetime date_in ;;
      let df := set_col df (lit "date") date_out in
      amount_in <- lift (get_col df (lit "amount")) ;;
      amount_out <- to_numeric amount_in ;;
      let df := set_col df (lit "amount") amount_out in
      df <- dropna_date_amount df ;;
      pret (Continue df).

End Normalise.

(** [total = df["amount"].sum()] *)
Definition total (df : DataFrame) : result Q :=
  match get_col df (lit "amount") with
  | Ok amount => Ok (series_sum amount)
  | Raise e => Raise e
  end.

(** *** Coercions on the formats the sample uses *)

Definition is_digit (c : N) : bool := ((48 <=? c) && (c <=? 57))%N.

Definition all_digits (s : str) : bool :=
  match s with [] => false | _ => forallb is_digit s end.

Definition digits_value (s : str) : Z :=
  fold_left (fun acc c => (10 * acc + (Z.of_N c - 48))%Z) s 0%Z.

(** A plain decimal numeral: an optional sign, digits, and optionally a
    point followed by digits. *)
Definition parse_decimal (s : str) : option Q :=
  let '(negative, body) :=
    match s with
    | 45%N :: t => (true, t)
    | 43%N :: t => (false, t)
    | _ => (false, s)
    end in
  let signed (q : Q) := if negative then Qopp q else q in
  match split 46 body with
  | [i] => if all_digits i then Some (signed (inject_Z (digits_value i))) else None
  | [i; f] =>
      if all_digits i && all_digits f
      then Some (signed (Qmake (digits_value (i ++ f))
                               (Pos.pow 10 (Pos.of_nat (List.length f)))))
      else None
  | _ => None
  end.

(** [pd.to_numeric] on missing cells and plain decimal numerals; other
    texts are outside the modelled part. *)
Definition to_numeric_plain (column : list cell) : partial (list cell) :=
  pmap (fun c =>
          match c with
          | NaN => pret NaN
          | Text s => match parse_decimal s with
                      | Some q => pret (Num q)
                      | None => None
                      end
          | _ => None
          end) column.

Definition leap_year (y : Z) : bool :=
  ((y mod 4 =? 0) && (negb (y mod 100 =? 0) || (y mod 400 =? 0)))%Z.

Definition days_in_month (y m : Z) : Z :=
  (if m =? 2 then (if leap_year y then 29 else 28)
   else if (m =? 4) || (m =? 6) || (m =? 9) || (m =? 11) then 30
   else 31)%Z.

(** A date written YYYY-MM-DD. *)
Definition parse_iso_date (s : str) : option date :=
  match s with
  | [y1; y2; y3; y4; 45%N; m1; m2; 45%N; d1; d2] =>
      if forallb is_digit [y1; y2; y3; y4; m1; m2; d1; d2] then
        let y := digits_value [y1; y2; y3; y4] in
        let m := digits_value [m1; m2] in
        let d := digits_value [d1; d2] in
        if ((1 <=? y) && (1 <=? m) && (m <=? 12) && (1 <=? d)
            && (d <=? days_in_month y m))%Z
        then Some {| year := y; month := m; day := d |}
        else None
      else None
  | _ => None
  end.

(** [pd.to_datetime] on missing cells and on valid dates written
    YYYY-MM-DD; other texts are outside the modelled part. *)
Definition to_datetime_iso (column : list cell) : partial (list cell) :=
  pmap (fun c =>
          match c with
          | NaN => pret NaN
          | Text s => match parse_iso_date s with
                      | Some d => pret (Timestamp d)
                      | None => None
                      end
          | _ => None
          end) column.

(** Lines 76-114 after a click on "Load sample data". *)
Definition sample_table : partial (script DataFrame) :=
  df <- read_csv_plain sample_csv ;;
  normalise ascii_lower to_datetime_iso to_numeric_plain df.

(* ================================================================== *)
(** ** 5. Budgeting *)

(** One row of the rule editor, [st.session_state.rules]; a field is
    [None] when the key is absent or holds [None]. *)
Record rule : Type :=
  { category : option str; keywords : option str; budget : option Q }.

(** What the widgets and the clock hand to the script. *)
Record inputs : Type :=
  { sel_period : option nat;   (* index chosen in the month selector;
                                  [None]: the default, the last option *)
    overall_budget : Q;        (* the number input, never negative *)
    rules : list rule;
    today : period }.          (* pd.Timestamp.today().to_period("M") *)

(** What the loop over the rules shows for one rule. *)
Inductive rule_result : Type :=
| NoKeywords (cat : str)
| Evaluated (cat : str) (cat_spent limit cat_progress : Q)
            (keywords : list str) (matched : DataFrame).

Record budget_report : Type :=
  { shown : list st_call;
    period_used : period;
    expenses_used : DataFrame;
    total_spend : Q;
    progress : Q;
    rule_results : list rule_result }.

Definition Qltb (a b : Q) : bool := negb (Qle_bool b a).

(** Python's [a / b] on floats. *)
Definition py_div (a b : Q) : result Q :=
  if Qeq_bool b 0 then Raise ZeroDivisionError else Ok (a / b).

(** Python's [min(1.0, x)]: [x] when [x < 1.0], else [1.0]. *)
Definition min_1 (x : Q) : Q := if Qltb x 1 then x else 1.

(** [min(1.0, spent / limit) if limit > 0 else 0.0], the expression of
    line 181 (overall) and of line 234 (per rule). *)
Definition progress_ratio (spent limit : Q) : result Q :=
  if Qltb 0 limit then
    match py_div spent limit with
    | Ok r => Ok (min_1 r)
    | Raise e => Raise e
    end
  else Ok 0.

Definition period_eqb (p q : period) : bool :=
  ((fst p =? fst q) && (snd p =? snd q))%Z.

Definition period_ltb (p q : period) : bool :=
  ((fst p <? fst q) || ((fst p =? fst q) && (snd p <? snd q)))%Z.

Fixpoint insert_period (p : period) (l : list period) : list period :=
  match l with
  | [] => [p]
  | q :: l' =>
      if period_eqb p q then l
      else if period_ltb p q then p :: l
      else q :: insert_period p l'
  end.

(** [sorted(column.dropna().unique().tolist())] *)
Fixpoint sorted_unique (column : list cell) : list period :=
  match column with
  | [] => []
  | Month p :: column' => insert_period p (sorted_unique column')
  | _ :: column' => sorted_unique column'
  end.

(** [df["date"].dt.to_period("M")].  A column that holds anything but
    timestamps and missing values is outside the modelled part. *)
Definition to_period_M (column : list cell) : partial (list cell) :=
  pmap (fun c =>
          match c with
          | Timestamp d => pret (Month (year d, month d))
          | NaN => pret NaN
          | _ => None
          end) column.

(** [st.selectbox(options, index=len(options)-1)]: the option the user
    chose.  Options are shown as text and read back with [pd.Period]; the
    two conversions are inverse to each other and are left out. *)
Definition selectbox (options : list period) (choice : option nat)
  : partial period :=
  match nth_error options
          (match choice with
           | Some i => i
           | None => List.length options - 1
           end) with
  | Some p => pret p
  | None => None
  end.

(** [column < 0] on numbers and missing values. *)
Definition lt_zero (column : list cell) : partial (list bool) :=
  pmap (fun c =>
          match c with
          | Num q => pret (Qltb q 0)
          | NaN => pret false
          | _ => None
          end) column.

(** [-column] on numbers and missing values. *)
Definition negated (column : list cell) : list cell :=
  map (fun c => match c with Num q => Num (- q) | _ => c end) column.

Definition or_empty (field : option str) : str :=
  match field with Some s => s | None => [] end.

(** Lines 151-155: the months found in the table, or the current month
    (with a warning) when there is none. *)
Definition unique_months_of (inp : inputs) (year_month : list cell)
  : list st_call * list period :=
  match sorted_unique year_month with
  | [] => ([st_warning_no_dates], [today inp])
  | found => ([], found)
  end.

Section Budgeting.

(** [str.lower] *)
Variable lower : str -> str.
(** The [re] module behind [Series.str.contains(k, na=False)], which
    takes [k] as a regular expression: [re.compile] and the search of a
    compiled pattern in a string. *)
Variable regex : Type.
Variable re_compile : str -> partial regex.
Variable re_search : regex -> str -> bool.

(** [[k.strip().lower() for k in kw_str.split(",") if k.strip()]] *)
Definition keywords_of (kw_str : str) : list str :=
  map (fun k => lower (strip k))
      (filter (fun k => negb (str_eqb (strip k) [])) (split 44 kw_str)).

(** [expenses["description"].str.lower()] with missing values filled by
    the empty string.  The column is taken to have object dtype, as it has
    when some cell of the file's column is text; a cell that is not text
    then counts as missing. *)
Definition desc_lower_of (description : list cell) : list str :=
  map (fun c => match c with Text s => lower s | _ => [] end) description.

(** [desc_lower.str.contains(k, na=False)] *)
Definition str_contains (desc_lower : list str) (k : str)
  : partial (list bool) :=
  r <- re_compile k ;;
  pret (map (re_search r) desc_lower).

(** The loop [for k in keywords: mask = mask | ...]. *)
Fixpoint mask_loop (desc_lower : list str) (mask : list bool)
         (keywords : list str) : partial (list bool) :=
  match keywords with
  | [] => pret mask
  | k :: keywords' =>
      hits <- str_contains desc_lower k ;;
      mask_loop desc_lower (map2 orb mask hits) keywords'
  end.

(** The body of [for rule in st.session_state.rules], lines 214-241. *)
Definition eval_rule (expenses : DataFrame) (r : rule) : partial rule_result :=
  let cat := match strip (or_empty (category r)) with
             | [] => lit "(Unnamed)"
             | c => c
             end in
  let kw_str := strip (or_empty (keywords r)) in
  let limit := match budget r with Some b => b | None => 0 end in
  let keywords := keywords_of kw_str in
  match keywords with
  | [] => pret (NoKeywords cat)
  | _ =>
      description <- lift (get_col expenses (lit "description")) ;;
      let desc_lower := desc_lower_of description in
      mask <- mask_loop desc_lower (map (fun _ => false) desc_lower) keywords ;;
      let matched := filter_rows expenses mask in
      cat_spent <- (if negb (df_empty matched)
                    then spent <- lift (get_col matched (lit "spent")) ;;
                         pret (series_sum spent)
                    else pret 0) ;;
      cat_progress <- lift (progress_ratio cat_spent limit) ;;
      pret (Evaluated cat cat_spent limit cat_progress keywords matched)
  end.

(** [month_data[month_data["amount"] < 0].copy()] with its [spent]
    column. *)
Definition expenses_of (month_data : DataFrame) : partial DataFrame :=
  amount <- lift (get_col month_data (lit "amount")) ;;
  negative <- lt_zero amount ;;
  let expenses := filter_rows month_data negative in
  amount <- lift (get_col expenses (lit "amount")) ;;
  pret (set_col expenses (lit "spent") (negated amount)).

(** Lines 151-241: reads the table, which carries the [year_month]
    column, and works on copies of its rows. *)
Definition evaluate (inp : inputs) (df : DataFrame) : partial budget_report :=
  year_month <- lift (get_col df (lit "year_month")) ;;
  let '(warned, unique_months) := unique_months_of inp year_month in
  period <- selectbox unique_months (sel_period inp) ;;
  let month_data :=
    filter_rows df
      (map (fun c => match c with Month p => period_eqb p period | _ => false end)
           year_month) in
  expenses <- expenses_of month_data ;;
  total_spend <- (if negb (df_empty expenses)
                  then spent <- lift (get_col expenses (lit "spent")) ;;
                       pret (series_sum spent)
                  else pret 0) ;;
  progress <- lift (progress_ratio total_spend (overall_budget inp)) ;;
  if df_empty expenses then
    pret {| shown := warned ++ [st_info_no_expenses];
            period_used := period; expenses_used := expenses;
            total_spend := total_spend; progress := progress;
            rule_results := [] |}
  else
    results <- pmap (eval_rule expenses) (rules inp) ;;
    pret {| shown := warned;
            period_used := period; expenses_used := expenses;
            total_spend := total_spend; progress := progress;
            rule_results := results |}.

(** Lines 148-244 on the table [df], which the script mutates in place:
    the helper column is set, the budgets are evaluated, and the helper
    column is dropped when the last line is reached. *)
Definition budgeting (inp : inputs) (df : DataFrame)
  : DataFrame * partial budget_report :=
  match get_col df (lit "date") with
  | Raise e => (df, praise e)
  | Ok dates =>
      match to_period_M dates with
      | Some (Ok year_month) =>
          let df := set_col df (lit "year_month") year_month in
          match evaluate inp df with
          | Some (Ok report) => (drop_col df (lit "year_month"), pret report)
          | failed => (df, failed)
          end
      | Some (Raise e) => (df, praise e)
      | None => (df, None)
      end
  end.

End Budgeting.

(* ================================================================== *)
(** ** A fragment of Python's regular expressions

    The patterns made of ordinary characters, of [.] and of a backslash
    before a character that is not an ASCII letter or digit, together with
    three kinds of malformed pattern that [re.compile] rejects.  Any other
    syntax is outside the fragment ([None]). *)

Inductive atom : Type :=
| Lit (c : N)     (* this character *)
| AnyChar.        (* [.]: any character except a newline *)

Definition fragment := list atom.

(** The characters with a meaning of their own: . ^ $ * + ? { } [ ] \ | ( ) *)
Definition is_special (c : N) : bool :=
  existsb (N.eqb c) [46; 94; 36; 42; 43; 63; 123; 125; 91; 93; 92; 124; 40; 41]%N.

Definition is_ascii_alnum (c : N) : bool :=
  (is_digit c || ((65 <=? c) && (c <=? 90)) || ((97 <=? c) && (c <=? 122)))%N.

Definition plain_or_dot (c : N) : bool := negb (is_special c) || (c =? 46)%N.

Fixpoint parse_atoms (p : str) : partial fragment :=
  match p with
  | [] => pret []
  | c :: t =>
      if (c =? 46)%N then                      (* . *)
        r <- parse_atoms t ;; pret (AnyChar :: r)
      else if (c =? 92)%N then                 (* \ *)
        match t with
        | [] => praise re_error                (* bad escape (end of pattern) *)
        | d :: t' =>
            if is_ascii_alnum d then None
            else r <- parse_atoms t' ;; pret (Lit d :: r)
        end
      else if (c =? 41)%N then                 (* ) *)
        praise re_error                        (* unbalanced parenthesis *)
      else if (c =? 40)%N then                 (* ( *)
        if forallb plain_or_dot t
        then praise re_error                   (* missing ), unterminated subpattern *)
        else None
      else if is_special c then None
      else r <- parse_atoms t ;; pret (Lit c :: r)
  end.

(** [re.compile(p)] on the fragment. *)
Definition re_compile_fragment (p : str) : partial fragment :=
  match p with
  | c :: _ =>
      if ((c =? 42) || (c =? 43) || (c =? 63))%N
      then praise re_error                     (* nothing to repeat *)
      else parse_atoms p
  | [] => parse_atoms p
  end.

Definition atom_matches (a : atom) (c : N) : bool :=
  match a with
  | Lit x => (x =? c)%N
  | AnyChar => negb (c =? 10)%N
  end.

Fixpoint match_here (r : fragment) (s : str) : bool :=
  match r, s with
  | [], _ => true
  | a :: r', c :: s' => atom_matches a c && match_here r' s'
  | _ :: _, [] => false
  end.

(** [r.search(s) is not None] *)
Fixpoint re_search_fragment (r : fragment) (s : str) : bool :=
  match_here r s ||
  match s with
  | [] => false
  | _ :: s' => re_search_fragment r s'
  end.

(** The budgeting section with ASCII lower-casing and the fragment. *)
Definition eval_rule_ascii : DataFrame -> rule -> partial rule_result :=
  eval_rule ascii_lower fragment re_compile_fragment re_search_fragment.

Definition budgeting_ascii : inputs -> DataFrame -> DataFrame * partial budget_report :=
  budgeting ascii_lower fragment re_compile_fragment re_search_fragment.

(** The default rules of line 190. *)
Definition default_rules : list rule :=
  [ {| category := Some (lit "Groceries");
       keywords := Some (lit "metro,costco,walmart,superstore");
       budget := Some 300 |};
    {| category := Some (lit "Transport");
       keywords := Some (lit "uber,lyft,shell,esso,petro,gas");
       budget := Some 150 |};
    {| category := Some (lit "Entertainment");
       keywords := Some (lit "cineplex,netflix,spotify,steam");
       budget := Some 100 |} ].

Definition default_inputs : inputs :=
  {| sel_period := None; overall_budget := 2000;
     rules := default_rules; today := (2026, 11)%Z |}.

(* ================================================================== *)
(** ** Vocabulary of the statements *)

(** [l'] is [l] with empty or white-space-only lines put in at any
    positions. *)
Inductive blank_inserted : list str -> list str -> Prop :=
| blank_inserted_nil : blank_inserted [] []
| blank_inserted_keep x l l' :
    blank_inserted l l' -> blank_inserted (x :: l) (x :: l')
| blank_inserted_blank b l l' :
    blank_line b = true -> blank_inserted l l' -> blank_inserted l (b :: l').

(** The normalised sample table (lines 76-114). *)
Definition sample_df : DataFrame :=
  match sample_table with
  | Some (Ok (Continue df)) => df
  | _ => empty_frame
  end.

(** A loader environment in which the separator cannot be detected and
    only a parse with the semicolon succeeds. *)
Definition semicolon_table : DataFrame :=
  {| columns := [lit "a"; lit "b"]; rows := [[Text (lit "1"); Text (lit "2")]] |}.

Definition no_excel (f : UploadedFile) : result DataFrame := Raise (LibraryError 1).
Definition no_utf8 (raw : bytes) : result str := Raise (LibraryError 2).
Definition no_sniff (sample : str) : result N := Raise (LibraryError 3).
Definition semicolon_only (text : str) (sep : option N) : result DataFrame :=
  match sep with
  | Some 59%N => Ok semicolon_table
  | _ => Raise (LibraryError 4)
  end.

Definition semicolon_file : UploadedFile :=
  {| name := Some (lit "ledger.CSV");
     read := [x61; x3b; x62; x0a; x31; x3b; x32; x0a] |}.   (* a;b\n1;2\n *)

(** A text of two lines, and the same text with a line of two spaces and
    an empty line put in after the first line and a line holding a tab
    after the second. *)
Definition two_lines : str := lit "a;b" ++ [10%N] ++ lit "1;2" ++ [10%N].

Definition two_lines_spaced : str :=
  lit "a;b" ++ [10; 32; 32; 10; 10]%N ++ lit "1;2" ++ [10; 9; 10]%N.

(** The cell of row [r] under [label]. *)
Definition cell_of (df : DataFrame) (label : str) (r : list cell) : cell :=
  match col_index label (columns df) with
  | Some i => nth i r NaN
  | None => NaN
  end.

(** What lines 112-114 leave: the columns [date] and [amount] exist, every
    row has one cell per column, a timestamp under [date] and a number
    under [amount]. *)
Definition normalised (df : DataFrame) : bool :=
  match col_index (lit "date") (columns df),
        col_index (lit "amount") (columns df) with
  | Some _, Some _ =>
      forallb (fun r =>
                 Nat.eqb (List.length r) (List.length (columns df))
                 && match cell_of df (lit "date") r, cell_of df (lit "amount") r with
                    | Timestamp _, Num _ => true
                    | _, _ => false
                    end) (rows df)
  | _, _ => false
  end.

(** The month of a row's date. *)
Definition month_cell (c : cell) : cell :=
  match c with
  | Timestamp d => Month (year d, month d)
  | _ => NaN
  end.

(** The row once line 148 has set its [year_month] cell. *)
Definition with_month (df : DataFrame) (r : list cell) : list cell :=
  let v := month_cell (cell_of df (lit "date") r) in
  match col_index (lit "year_month") (columns df) with
  | Some k => replace_nth k v r
  | None => r ++ [v]
  end.

(** The period the month selector returns for this table. *)
Definition selected_period (inp : inputs) (df : DataFrame) : option period :=
  let options :=
    snd (unique_months_of inp (map (fun r => month_cell (cell_of df (lit "date") r))
                                   (rows df))) in
  nth_error options
    (match sel_period inp with
     | Some i => i
     | None => List.length options - 1
     end).

(** The row is an expense of period [p]: dated in [p], amount below zero. *)
Definition is_expense_in (df : DataFrame) (p : period) (r : list cell) : bool :=
  match month_cell (cell_of df (lit "date") r), cell_of df (lit "amount") r with
  | Month m, Num q => period_eqb m p && Qltb q 0
  | _, _ => false
  end.

(** Every one of these separators makes the reader raise. *)
Definition all_raise (read_csv : str -> option N -> result DataFrame)
           (stripped : str) (seps : list N) : Prop :=
  Forall (fun s => exists e, read_csv stripped (Some s) = Raise e) seps.

(** The columns once the helper column is set. *)
Definition columns_with_month (df : DataFrame) : list str :=
  match col_index (lit "year_month") (columns df) with
  | Some _ => columns df
  | None => columns df ++ [lit "year_month"]
  end.

(** The test of line 168 and the test of line 171 on a row of the
    table. *)
Definition in_period (df : DataFrame) (p : period) (r : list cell) : bool :=
  match month_cell (cell_of df (lit "date") r) with
  | Month m => period_eqb m p
  | _ => false
  end.

Definition below_zero (df : DataFrame) (r : list cell) : bool :=
  match cell_of df (lit "amount") r with
  | Num q => Qltb q 0
  | _ => false
  end.

(** [month_data[month_data["amount"] < 0]] before [spent] is added. *)
Definition expense_rows (df : DataFrame) (p : period) : DataFrame :=
  {| columns := columns_with_month df;
     rows := map (with_month df)
                 (filter (below_zero df) (filter (in_period df p) (rows df))) |}.

(** No character of the keyword has a meaning of its own in a pattern. *)
Definition plain (k : str) : bool := forallb (fun c => negb (is_special c)) k.

(** A table with income only, and one whose file brings a column named
    like the helper column of the budgeting section. *)
Definition income_only : DataFrame :=
  {| columns := map lit ["date"; "amount"; "description"]%string;
     rows := [[Timestamp {| year := 2024; month := 9; day := 3 |};
               Num 2000; Text (lit "Payroll Deposit")]] |}.

Definition fiscal_csv : str := lit "date,amount,description,year_month
2024-09-01,-85.20,Metro Groceries,FY2025
2024-09-03,2000.00,Payroll Deposit,FY2025
".

Definition fiscal_table : partial (script DataFrame) :=
  df <- read_csv_plain fiscal_csv ;;
  normalise ascii_lower to_datetime_iso to_numeric_plain df.

Definition fiscal_df : DataFrame :=
  match fiscal_table with
  | Some (Ok (Continue df)) => df
  | _ => empty_frame
  end.

(** Rule lists with one rule. *)
Definition one_rule (kw : string) : list rule :=
  [ {| category := Some (lit "Transport"); keywords := Some (lit kw);
       budget := Some 150 |} ].

Definition inputs_with (rs : list rule) : inputs :=
  {| sel_period := None; overall_budget := 2000; rules := rs;
     today := (2026, 11)%Z |}.

(* ================================================================== *)
(** ** The script around the loader (lines 90-114) *)

Section Script.

Variable lower : str -> str.
Variable read_excel : UploadedFile -> result DataFrame.
Variable decode_utf_8_sig decode_utf_8 : bytes -> result str.
Variable sniff : str -> result N.
Variable read_csv : str -> option N -> result DataFrame.
Variable to_datetime to_numeric : list cell -> partial (list cell).

(** Lines 90-114 when a file is uploaded and the sample is not asked for:
    the table is loaded, then checked and normalised.  The messages of
    the loader come first; the message of a stop is in the outcome. *)
Definition file_table (f : UploadedFile)
  : list st_call * partial (script DataFrame) :=
  let '(shown, loaded) :=
    load_table lower read_excel decode_utf_8_sig decode_utf_8 sniff read_csv
               (Some f) in
  match loaded with
  | Ok df => (shown, normalise lower to_datetime to_numeric df)
  | Raise e => (shown, praise e)
  end.

End Script.

(* ================================================================== *)
(** ** Vocabulary of the further properties *)

(** The line holds no character at which [str.splitlines] breaks. *)
Definition clean_line (l : str) : bool :=
  forallb (fun c => negb ((c =? 13)%N || is_linebreak c)) l.

(** Every row holds one cell per column label. *)
Definition well_formed (df : DataFrame) : bool :=
  forallb (fun r => Nat.eqb (List.length r) (List.length (columns df))) (rows df).

(** What a coercion with [errors="coerce"] leaves in a column. *)
Definition timestamp_or_nan (c : cell) : bool :=
  match c with Timestamp _ | NaN => true | _ => false end.

Definition number_or_nan (c : cell) : bool :=
  match c with Num _ | NaN => true | _ => false end.

(** The header once line 101 has cleaned it. *)
Definition clean_header (lower : str -> str) (df : DataFrame) : list str :=
  map (fun c => lower (strip c)) (columns df).

Definition period_leb (p q : period) : bool := period_eqb p q || period_ltb p q.

(** Each period is strictly before the next. *)
Fixpoint increasing (l : list period) : bool :=
  match l with
  | p :: ((q :: _) as l') => period_ltb p q && increasing l'
  | _ => true
  end.

(** The text is made of commas and white space only. *)
Definition only_separators (s : str) : bool :=
  forallb (fun c => isspace c || (c =? 44)%N) s.

(** Some cell of the column is text: the column then has object dtype and
    the string methods of line 225 apply to it. *)
Definition has_text (column : list cell) : bool :=
  existsb (fun c => match c with Text _ => true | _ => false end) column.

(** [t] is a contiguous piece of [x]. *)
Definition piece_of (t x : str) : Prop := exists a b, x = a ++ t ++ b.

(** The cells of a description column, lower-cased. *)
Definition lower_cell (c : cell) : cell :=
  match c with Text s => Text (ascii_lower s) | _ => c end.

(** The expenses of period [p] with their [spent] column (lines 168-172),
    read off the rows of the table. *)
Definition expense_amounts (df : DataFrame) (p : period) : list cell :=
  map (cell_of df (lit "amount"))
      (filter (below_zero df) (filter (in_period df p) (rows df))).

Definition expenses_frame (df : DataFrame) (p : period) : DataFrame :=
  set_col (expense_rows df p) (lit "spent") (negated (expense_amounts df p)).

(** The table once line 148 has set the helper column. *)
Definition table_with_month (df : DataFrame) : DataFrame :=
  {| columns := columns_with_month df; rows := map (with_month df) (rows df) |}.

(** A table without an amount column, and the sample as the reader
    returns it. *)
Definition no_amount_table : DataFrame :=
  {| columns := [lit " Date"; lit "Description "];
     rows := [[Text (lit "2024-09-01"); Text (lit "Metro Groceries")]] |}.

Definition sample_raw : DataFrame :=
  match read_csv_plain sample_csv with
  | Some (Ok df) => df
  | _ => empty_frame
  end.

(** The report of the budgeting section on the sample with the default
    inputs. *)
Definition sample_report : budget_report :=
  match snd (budgeting_ascii default_inputs sample_df) with
  | Some (Ok r) => r
  | _ => {| shown := []; period_used := today default_inputs;
            expenses_used := empty_frame; total_spend := 0; progress := 0;
            rule_results := [] |}
  end.

(** A rule whose keyword starts with a repetition sign. *)
Definition starred_rule : rule :=
  {| category := Some (lit "Fuel"); keywords := Some (lit "*gas");
     budget := Some 50 |}.

(* ================================================================== *)
(** * Properties *)

Lemma str_eqb_eq (a b : str) : str_eqb a b = true <-> a = b.
Proof.
  revert b; induction a as [|x a IH]; intros [|y b]; simpl; split;
    try congruence; try reflexivity.
  - intros H. apply andb_true_iff in H as [H1 H2].
    apply N.eqb_eq in H1. apply IH in H2. congruence.
  - intros H. injection H as -> ->. rewrite N.eqb_refl. simpl. now apply IH.
Qed.

Lemma str_eqb_refl (a : str) : str_eqb a a = true.
Proof. now apply str_eqb_eq. Qed.

(** ** Lists, columns and the error monad *)

Lemma pbind_ret {A B} (a : A) (f : A -> partial B) :
  pbind (Some (Ok a)) f = f a.
Proof. reflexivity. Qed.

Lemma pbind_ok_inv {A B} (m : partial A) (f : A -> partial B) (b : B) :
  pbind m f = Some (Ok b) -> exists a, m = Some (Ok a) /\ f a = Some (Ok b).
Proof.
  destruct m as [[a|e]|]; simpl; intros H; try discriminate H. eauto.
Qed.

Ltac pinv H :=
  let a := fresh "a" in
  let Ha := fresh "Ha" in
  apply pbind_ok_inv in H; destruct H as (a & Ha & H).

Lemma pmap_map {A B} (f : A -> partial B) (g : A -> B) (l : list A) :
  (forall x, In x l -> f x = Some (Ok (g x))) ->
  pmap f l = Some (Ok (map g l)).
Proof.
  induction l as [|x l IH]; intros H; simpl; [reflexivity|].
  rewrite (H x (or_introl eq_refl)). simpl.
  rewrite IH by (intros y Hy; apply H; now right). reflexivity.
Qed.

Lemma map2_map_r {A B C} (f : A -> B -> C) (g : A -> B) (l : list A) :
  map2 f l (map g l) = map (fun x => f x (g x)) l.
Proof. induction l as [|x l IH]; simpl; [reflexivity|now rewrite IH]. Qed.

Lemma map2_map_both {A B C D} (f : B -> C -> D) (g : A -> B) (h : A -> C)
      (l : list A) :
  map2 f (map g l) (map h l) = map (fun x => f (g x) (h x)) l.
Proof. induction l as [|x l IH]; simpl; [reflexivity|now rewrite IH]. Qed.

Lemma select_map {A} (p : A -> bool) (l : list A) :
  select l (map p l) = filter p l.
Proof.
  induction l as [|x l IH]; simpl; [reflexivity|].
  destruct (p x); now rewrite IH.
Qed.

Lemma filter_map_comm {A B} (p : B -> bool) (h : A -> B) (l : list A) :
  filter p (map h l) = map h (filter (fun x => p (h x)) l).
Proof.
  induction l as [|x l IH]; simpl; [reflexivity|].
  destruct (p (h x)); simpl; now rewrite IH.
Qed.

Lemma filter_none {A} (p : A -> bool) (l : list A) :
  forallb (fun x => negb (p x)) l = true -> filter p l = [].
Proof.
  induction l as [|x l IH]; simpl; [reflexivity|].
  intros H. apply andb_true_iff in H as [Hx Hl].
  apply negb_true_iff in Hx. rewrite Hx. now apply IH.
Qed.

Lemma col_index_lt (label : str) (cols : list str) (i : nat) :
  col_index label cols = Some i -> (i < List.length cols)%nat.
Proof.
  revert i; induction cols as [|c cols IH]; simpl; intros i H; [discriminate|].
  destruct (str_eqb c label).
  - injection H as <-. lia.
  - destruct (col_index label cols) as [k|]; [|discriminate].
    injection H as <-. specialize (IH k eq_refl). lia.
Qed.

Lemma col_index_nth (label : str) (cols : list str) (i : nat) :
  col_index label cols = Some i -> nth i cols [] = label.
Proof.
  revert i; induction cols as [|c cols IH]; simpl; intros i H; [discriminate|].
  destruct (str_eqb c label) eqn:E.
  - injection H as <-. now apply str_eqb_eq.
  - destruct (col_index label cols) as [k|]; [|discriminate].
    injection H as <-. now apply IH.
Qed.

Lemma col_index_app_new (label : str) (cols : list str) :
  col_index label cols = None ->
  col_index label (cols ++ [label]) = Some (List.length cols).
Proof.
  induction cols as [|c cols IH]; simpl; intros H.
  - now rewrite str_eqb_refl.
  - destruct (str_eqb c label); [discriminate|].
    destruct (col_index label cols); [discriminate|].
    now rewrite IH.
Qed.

Lemma col_index_app_old (label other : str) (cols : list str) (i : nat) :
  col_index label cols = Some i ->
  col_index label (cols ++ [other]) = Some i.
Proof.
  revert i; induction cols as [|c cols IH]; simpl; intros i H; [discriminate|].
  destruct (str_eqb c label); [exact H|].
  destruct (col_index label cols) as [k|]; [|discriminate].
  now rewrite (IH k eq_refl).
Qed.

Lemma nth_replace_nth_eq {A} (i : nat) (v d : A) (l : list A) :
  (i < List.length l)%nat -> nth i (replace_nth i v l) d = v.
Proof.
  revert i; induction l as [|x l IH]; intros [|i]; simpl; intros H;
    try lia; [reflexivity|]. apply IH. lia.
Qed.

Lemma nth_replace_nth_neq {A} (i j : nat) (v d : A) (l : list A) :
  i <> j -> nth j (replace_nth i v l) d = nth j l d.
Proof.
  revert i j; induction l as [|x l IH]; intros [|i] [|j] H; simpl;
    try reflexivity; try congruence.
  apply IH. congruence.
Qed.

Lemma remove_nth_last {A} (l : list A) (v : A) :
  remove_nth (List.length l) (l ++ [v]) = l.
Proof. induction l as [|x l IH]; simpl; [reflexivity|now rewrite IH]. Qed.

Lemma select_map_map {A B} (h : A -> B) (q : A -> bool) (l : list A) :
  select (map h l) (map q l) = map h (filter q l).
Proof.
  induction l as [|x l IH]; simpl; [reflexivity|].
  destruct (q x); simpl; now rewrite IH.
Qed.

Lemma get_col_cell_of (df : DataFrame) (label : str) (i : nat) :
  col_index label (columns df) = Some i ->
  get_col df label = Ok (map (cell_of df label) (rows df)).
Proof. intros H. unfold get_col, cell_of. now rewrite H. Qed.

Lemma col_index_distinct (l1 l2 : str) (cols : list str) (i j : nat) :
  col_index l1 cols = Some i -> col_index l2 cols = Some j ->
  l1 <> l2 -> i <> j.
Proof.
  intros H1 H2 Hne ->. apply Hne.
  now rewrite <- (col_index_nth _ _ _ H1), <- (col_index_nth _ _ _ H2).
Qed.

(** ** The sample (lines 76-123) *)

Lemma sample_table_eq : sample_table = Some (Ok (Continue sample_df)).
Proof. vm_compute. reflexivity. Qed.

(** C1, as stated: the sample does not give nine records with a net
    total of 4147.95. *)
Lemma sample_total_is_not_4147_95 :
  ~ (exists df t,
        sample_table = Some (Ok (Continue df))
        /\ List.length (rows df) = 9%nat
        /\ total df = Ok t
        /\ t == 4147.95).
Proof.
  intros (df & t & Hdf & _ & Ht & Heq).
  rewrite sample_table_eq in Hdf. injection Hdf as <-.
  vm_compute in Ht. injection Ht as <-.
  vm_compute in Heq. discriminate Heq.
Qed.

(** C1, amended: loading the bundled sample yields exactly nine
    transaction records, and the net total, the sum of the amount column,
    is 3132.12 (3500.00 of income less 367.88 of expenses). *)
Theorem sample_nine_records_total_3132_12 :
  exists df t,
    sample_table = Some (Ok (Continue df))
    /\ List.length (rows df) = 9%nat
    /\ total df = Ok t
    /\ t == 3132.12.
Proof.
  exists sample_df. eexists. split; [exact sample_table_eq|].
  split; [reflexivity|]. split; [vm_compute; reflexivity|].
  vm_compute. reflexivity.
Qed.

(** ** Blank lines put into a text *)

Lemma lstrip_spaces (l : str) : forallb isspace l = true -> lstrip l = [].
Proof.
  induction l as [|c l IH]; simpl; [reflexivity|].
  intros H. apply andb_true_iff in H as [-> Hl]. now apply IH.
Qed.

Lemma blank_line_spaces (l : str) : forallb isspace l = true -> blank_line l = true.
Proof.
  intros H. unfold blank_line, strip. now rewrite (lstrip_spaces l H).
Qed.

Lemma forallb_rev {A} (f : A -> bool) (l : list A) :
  forallb f l = true -> forallb f (rev l) = true.
Proof.
  rewrite !forallb_forall. intros H x Hx. apply H. now apply in_rev.
Qed.

(** A newline ends the current line whatever follows it. *)
Lemma splitlines_from_newline (n : nat) :
  forall a cur rest,
    (List.length a <= n)%nat ->
    splitlines_from cur (a ++ 10%N :: rest)
    = splitlines_from cur (a ++ [10%N]) ++ splitlines_from [] rest.
Proof.
  induction n as [|n IH]; intros a cur rest Hlen.
  - destruct a; [reflexivity|simpl in Hlen; lia].
  - destruct a as [|c a]; [reflexivity|]. simpl in Hlen.
    cbn [app splitlines_from].
    destruct (c =? 13)%N.
    + destruct a as [|d a]; [reflexivity|]. simpl in Hlen.
      cbn [app]. destruct (d =? 10)%N.
      * exact (f_equal (cons (rev cur)) (IH a [] rest ltac:(lia))).
      * exact (f_equal (cons (rev cur))
                       (IH (d :: a) [] rest ltac:(simpl; lia))).
    + destruct (is_linebreak c).
      * exact (f_equal (cons (rev cur)) (IH a [] rest ltac:(lia))).
      * apply IH. lia.
Qed.

(** White space followed by a newline splits into blank lines only. *)
Lemma splitlines_from_spaces (n : nat) :
  forall w cur,
    (List.length w <= n)%nat ->
    forallb isspace w = true ->
    forallb isspace cur = true ->
    Forall (fun l => blank_line l = true) (splitlines_from cur (w ++ [10%N])).
Proof.
  induction n as [|n IH]; intros w cur Hlen Hw Hcur.
  - destruct w; [|simpl in Hlen; lia]. simpl.
    constructor; [|constructor].
    apply blank_line_spaces. now apply forallb_rev.
  - destruct w as [|c w].
    { simpl. constructor; [|constructor].
      apply blank_line_spaces. now apply forallb_rev. }
    simpl in Hlen, Hw. apply andb_true_iff in Hw as [Hc Hw].
    assert (Hline : blank_line (rev cur) = true)
      by (apply blank_line_spaces; now apply forallb_rev).
    cbn [app splitlines_from].
    destruct (c =? 13)%N.
    + destruct w as [|d w].
      * simpl. constructor; [exact Hline|constructor].
      * simpl in Hlen, Hw. cbn [app]. destruct (d =? 10)%N.
        -- constructor; [exact Hline|].
           apply andb_true_iff in Hw as [_ Hw]. apply IH; [lia|exact Hw|reflexivity].
        -- constructor; [exact Hline|].
           exact (IH (d :: w) [] ltac:(simpl; lia) Hw eq_refl).
    + destruct (is_linebreak c).
      * constructor; [exact Hline|]. apply IH; [lia|exact Hw|reflexivity].
      * apply IH; [lia|exact Hw|]. simpl. now rewrite Hc.
Qed.

Lemma blank_inserted_refl (l : list str) : blank_inserted l l.
Proof. induction l; constructor; assumption. Qed.

Lemma blank_inserted_app (l1 blanks l2 : list str) :
  Forall (fun l => blank_line l = true) blanks ->
  blank_inserted (l1 ++ l2) (l1 ++ blanks ++ l2).
Proof.
  intros H. induction l1 as [|x l1 IH]; simpl.
  - induction H as [|b blanks Hb _ IHb]; simpl.
    + apply blank_inserted_refl.
    + now constructor.
  - now constructor.
Qed.

(** White space and a newline put in at the start of the text or right
    after a newline add blank lines to its lines, and nothing else. *)
Lemma blank_line_inserted_in_text (a w b : str) :
  a = [] \/ (exists a0, a = a0 ++ [10%N]) ->
  forallb isspace w = true ->
  blank_inserted (splitlines (a ++ b)) (splitlines (a ++ w ++ 10%N :: b)).
Proof.
  intros Ha Hw. unfold splitlines.
  assert (Hblank : Forall (fun l => blank_line l = true)
                          (splitlines_from [] (w ++ [10%N])))
    by (apply (splitlines_from_spaces (List.length w)); auto).
  destruct Ha as [->|(a0 & ->)].
  - cbn [app]. rewrite (splitlines_from_newline (List.length w)) by lia.
    apply (blank_inserted_app [] _ _ Hblank).
  - rewrite <- !app_assoc. cbn [app].
    rewrite (splitlines_from_newline (List.length a0) a0 [] b) by lia.
    rewrite (splitlines_from_newline (List.length a0) a0 [] (w ++ 10%N :: b)) by lia.
    rewrite (splitlines_from_newline (List.length w) w [] b) by lia.
    now apply blank_inserted_app.
Qed.

(** ** The loader (lines 14-65) *)

Section LoaderFacts.

Variable lower : str -> str.
Variable read_excel : UploadedFile -> result DataFrame.
Variable decode_utf_8_sig decode_utf_8 : bytes -> result str.
Variable sniff : str -> result N.
Variable read_csv : str -> option N -> result DataFrame.

Local Abbreviation encs := (encodings decode_utf_8_sig decode_utf_8).
Local Abbreviation load :=
  (load_table lower read_excel decode_utf_8_sig decode_utf_8 sniff read_csv).
Local Abbreviation parse := (parse_text sniff read_csv).
Local Abbreviation retry := (fallbacks read_csv).

Lemma decode_loop_latin1 (raw : bytes) :
  decode_loop encs raw = Some (map Byte.to_N raw)
  \/ (exists text, decode_utf_8 raw = Ok text /\ decode_loop encs raw = Some text)
  \/ (exists text, decode_utf_8_sig raw = Ok text /\ decode_loop encs raw = Some text).
Proof.
  unfold encodings. simpl.
  destruct (decode_utf_8_sig raw) as [t|e] eqn:E1; [right; right; eauto|].
  destruct (decode_utf_8 raw) as [t|e'] eqn:E2; [right; left; eauto|].
  now left.
Qed.

Lemma decode_loop_total (raw : bytes) :
  exists text, decode_loop encs raw = Some text.
Proof.
  destruct (decode_loop_latin1 raw) as [H|[(t & _ & H)|(t & _ & H)]]; eauto.
Qed.

(** A file routed to text parsing returns what the parsing of its
    decoded text returns, and shows no message. *)
Lemma load_table_text (f : UploadedFile) :
  is_excel_name lower f = false ->
  exists text, decode_loop encs (read f) = Some text
               /\ load (Some f) = ([], parse text).
Proof.
  intros Hname. unfold load_table. rewrite Hname.
  destruct (decode_loop_total (read f)) as [text ->]. eauto.
Qed.

(** C9: for every file, the decoding loop ends with a text, whatever the
    two UTF-8 decoders do, because the Latin-1 decoder accepts every byte
    sequence; the loader therefore never shows the decode error, and a
    file routed to text parsing returns what the parsing of its decoded
    text returns. *)
Theorem decode_never_fails :
  (forall raw, exists text, decode_loop encs raw = Some text)
  /\ (forall uploaded_file, ~ In st_error_decode (fst (load uploaded_file)))
  /\ (forall f, is_excel_name lower f = false ->
        exists text, decode_loop encs (read f) = Some text
                     /\ load (Some f) = ([], parse text)).
Proof.
  split; [exact decode_loop_total|]. split.
  - intros [f|]; unfold load_table; [|simpl; tauto].
    destruct (is_excel_name lower f).
    + destruct (read_excel f); simpl; [tauto|].
      intros [H|[]]. discriminate H.
    + destruct (decode_loop_total (read f)) as [text ->]. simpl. tauto.
  - exact load_table_text.
Qed.

Lemma fallbacks_never_raise (stripped : str) (seps : list N) :
  exists df, retry stripped seps = Ok df.
Proof.
  induction seps as [|s seps IH]; simpl; [eauto|].
  destruct (read_csv stripped (Some s)); simpl; eauto.
Qed.

Lemma fallbacks_first_success (stripped : str) (pre post : list N) (s : N)
      (df : DataFrame) :
  all_raise read_csv stripped pre ->
  read_csv stripped (Some s) = Ok df ->
  retry stripped (pre ++ s :: post) = Ok df.
Proof.
  intros Hpre Hs. induction Hpre as [|x pre (e & Hx) _ IH]; simpl.
  - now rewrite Hs.
  - now rewrite Hx.
Qed.

Lemma fallbacks_all_fail (stripped : str) (seps : list N) :
  all_raise read_csv stripped seps -> retry stripped seps = Ok empty_frame.
Proof.
  intros H. induction H as [|x seps (e & Hx) _ IH]; simpl; [reflexivity|].
  now rewrite Hx.
Qed.

(** C3: for every file routed to text parsing, the loader returns a
    table and never raises.  When the parse with the sniffed (or unset)
    separator succeeds its table is returned; when it raises, the
    separators comma, semicolon, tab, pipe are tried in that order and
    the table of the first one that parses is returned; when all of them
    raise, the empty table is returned. *)
Theorem load_table_fallback_chain (f : UploadedFile) :
  is_excel_name lower f = false ->
  exists text,
    decode_loop encs (read f) = Some text
    /\ trial_seps = [44; 59; 9; 124]%N
    /\ (exists df, load (Some f) = ([], Ok df))
    /\ (forall df,
           read_csv (stripped_of text) (sniffed_sep sniff (stripped_of text)) = Ok df ->
           snd (load (Some f)) = Ok df)
    /\ (forall e,
           read_csv (stripped_of text) (sniffed_sep sniff (stripped_of text)) = Raise e ->
           (forall pre s post df,
               trial_seps = pre ++ s :: post ->
               all_raise read_csv (stripped_of text) pre ->
               read_csv (stripped_of text) (Some s) = Ok df ->
               snd (load (Some f)) = Ok df)
           /\ (all_raise read_csv (stripped_of text) trial_seps ->
               snd (load (Some f)) = Ok empty_frame)).
Proof.
  intros Hname.
  destruct (load_table_text f Hname) as (text & Hdec & Heq).
  exists text. split; [exact Hdec|]. split; [reflexivity|].
  rewrite Heq. cbn [fst snd]. unfold parse_text.
  split; [|split].
  - destruct (read_csv (stripped_of text) _) as [df|e]; cbn [try_except];
      [eauto|].
    destruct (fallbacks_never_raise (stripped_of text) trial_seps) as [df ->].
    eauto.
  - intros df ->. reflexivity.
  - intros e ->. cbn [try_except]. split.
    + intros pre s post df -> Hpre Hs. now apply fallbacks_first_success.
    + apply fallbacks_all_fail.
Qed.

Lemma filter_blank_inserted (l l' : list str) :
  blank_inserted l l' ->
  filter (fun line => negb (blank_line line)) l'
  = filter (fun line => negb (blank_line line)) l.
Proof.
  induction 1 as [|x l l' _ IH|b l l' Hb _ IH]; simpl.
  - reflexivity.
  - now rewrite IH.
  - now rewrite Hb.
Qed.

(** C7: when the lines of [text'] are the lines of [text] with empty or
    white-space-only lines put in at any positions, the text handed to
    the sniffer and to the reader is the same for both, and so is the
    outcome of the parsing: the same table, rows and cells alike. *)
Theorem blank_lines_do_not_change_parse (text text' : str) :
  blank_inserted (splitlines text) (splitlines text') ->
  stripped_of text' = stripped_of text /\ parse text' = parse text.
Proof.
  intros H.
  assert (Hs : stripped_of text' = stripped_of text).
  { unfold stripped_of. now rewrite (filter_blank_inserted _ _ H). }
  split; [exact Hs|]. unfold parse_text. now rewrite Hs.
Qed.

(** In particular, white space and a newline put in at the start of the
    text or right after a newline leave the outcome as it was. *)
Corollary blank_line_in_text_does_not_change_parse (a w b : str) :
  a = [] \/ (exists a0, a = a0 ++ [10%N]) ->
  forallb isspace w = true ->
  parse (a ++ w ++ 10%N :: b) = parse (a ++ b).
Proof.
  intros Ha Hw. unfold parse_text, stripped_of.
  now rewrite (filter_blank_inserted _ _ (blank_line_inserted_in_text a w b Ha Hw)).
Qed.

End LoaderFacts.

Lemma load_table_fallback_chain_witness :
  is_excel_name ascii_lower semicolon_file = false
  /\ snd (load_table ascii_lower no_excel no_utf8 no_utf8 no_sniff semicolon_only
                     (Some semicolon_file)) = Ok semicolon_table.
Proof.
  split; [reflexivity|].
  destruct (load_table_fallback_chain ascii_lower no_excel no_utf8 no_utf8
              no_sniff semicolon_only semicolon_file eq_refl)
    as (text & Hdec & _ & _ & _ & Hretry).
  vm_compute in Hdec. injection Hdec as <-.
  destruct (Hretry (LibraryError 4) eq_refl) as [Hfirst _].
  apply (Hfirst [44%N] 59%N [9%N; 124%N]); [reflexivity| |reflexivity].
  constructor; [eexists; reflexivity|constructor].
Defined.

Lemma blank_lines_do_not_change_parse_witness :
  blank_inserted (splitlines two_lines) (splitlines two_lines_spaced)
  /\ parse_text no_sniff semicolon_only two_lines_spaced
     = parse_text no_sniff semicolon_only two_lines.
Proof.
  assert (H : blank_inserted (splitlines two_lines) (splitlines two_lines_spaced)).
  { vm_compute. repeat constructor. }
  split; [exact H|].
  exact (proj2 (blank_lines_do_not_change_parse no_sniff semicolon_only _ _ H)).
Defined.

(** ** The progress expression (lines 181 and 234) *)

Lemma progress_ratio_returns (spent limit : Q) :
  exists p, progress_ratio spent limit = Ok p.
Proof.
  unfold progress_ratio, py_div, Qltb.
  destruct (Qle_bool limit 0) eqn:E; simpl; [eauto|].
  destruct (Qeq_bool limit 0) eqn:E0; [|eauto].
  apply Qeq_bool_iff in E0.
  assert (Hle : limit <= 0) by (rewrite E0; apply Qle_refl).
  apply Qle_bool_iff in Hle. congruence.
Qed.

Lemma progress_ratio_of_zero (limit : Q) :
  exists p, progress_ratio 0 limit = Ok p /\ p == 0.
Proof.
  unfold progress_ratio, py_div, Qltb.
  destruct (Qle_bool limit 0) eqn:E; simpl; [exists 0; split; reflexivity|].
  destruct (Qeq_bool limit 0) eqn:E0.
  - apply Qeq_bool_iff in E0.
    assert (Hle : limit <= 0) by (rewrite E0; apply Qle_refl).
    apply Qle_bool_iff in Hle. congruence.
  - eexists; split; [reflexivity|].
    assert (Hz : 0 / limit == 0) by (unfold Qdiv; apply Qmult_0_l).
    unfold min_1, Qltb.
    destruct (Qle_bool 1 (0 / limit)) eqn:E1; simpl; [|exact Hz].
    apply Qle_bool_iff in E1. rewrite Hz in E1.
    unfold Qle in E1. simpl in E1. lia.
Qed.

Lemma progress_ratio_nonpositive (spent limit : Q) :
  limit <= 0 -> progress_ratio spent limit = Ok 0.
Proof.
  intros H. unfold progress_ratio, Qltb.
  apply Qle_bool_iff in H. now rewrite H.
Qed.

(** ** The budgeting section on a normalised table *)

Lemma normalised_inv (df : DataFrame) :
  normalised df = true ->
  exists i j,
    col_index (lit "date") (columns df) = Some i
    /\ col_index (lit "amount") (columns df) = Some j
    /\ forall r, In r (rows df) ->
         List.length r = List.length (columns df)
         /\ (exists d, cell_of df (lit "date") r = Timestamp d)
         /\ (exists q, cell_of df (lit "amount") r = Num q).
Proof.
  unfold normalised.
  destruct (col_index (lit "date") (columns df)) as [i|]; [|discriminate].
  destruct (col_index (lit "amount") (columns df)) as [j|]; [|discriminate].
  intros H. exists i, j. split; [reflexivity|]. split; [reflexivity|].
  intros r Hr. rewrite forallb_forall in H. specialize (H r Hr).
  apply andb_true_iff in H as [Hlen Hcells].
  apply Nat.eqb_eq in Hlen. split; [exact Hlen|].
  destruct (cell_of df (lit "date") r); try discriminate.
  destruct (cell_of df (lit "amount") r); try discriminate.
  eauto.
Qed.

Lemma set_year_month (df : DataFrame) :
  set_col df (lit "year_month")
          (map (fun r => month_cell (cell_of df (lit "date") r)) (rows df))
  = {| columns := columns_with_month df; rows := map (with_month df) (rows df) |}.
Proof.
  unfold set_col, columns_with_month, with_month.
  destruct (col_index (lit "year_month") (columns df)) as [k|];
    now rewrite map2_map_r.
Qed.

Lemma to_period_M_normalised (df : DataFrame) :
  normalised df = true ->
  to_period_M (map (cell_of df (lit "date")) (rows df))
  = Some (Ok (map (fun r => month_cell (cell_of df (lit "date") r)) (rows df))).
Proof.
  intros H. destruct (normalised_inv df H) as (i & j & _ & _ & Hrows).
  unfold to_period_M. rewrite <- (map_map (cell_of df (lit "date")) month_cell).
  apply pmap_map. intros c Hc. apply in_map_iff in Hc as (r & <- & Hr).
  destruct (Hrows r Hr) as (_ & (d & ->) & _). reflexivity.
Qed.

Lemma with_month_cells (df : DataFrame) (r : list cell) (i j k : nat) :
  col_index (lit "date") (columns df) = Some i ->
  col_index (lit "amount") (columns df) = Some j ->
  col_index (lit "year_month") (columns_with_month df) = Some k ->
  List.length r = List.length (columns df) ->
  nth k (with_month df r) NaN = month_cell (cell_of df (lit "date") r)
  /\ nth j (with_month df r) NaN = cell_of df (lit "amount") r.
Proof.
  intros Hi Hj Hk Hlen. unfold with_month, columns_with_month in *.
  assert (Hamount : cell_of df (lit "amount") r = nth j r NaN)
    by (unfold cell_of; now rewrite Hj).
  rewrite Hamount.
  destruct (col_index (lit "year_month") (columns df)) as [k'|] eqn:Ek.
  - assert (k' = k) by congruence. subst k'. split.
    + apply nth_replace_nth_eq. rewrite Hlen. now apply col_index_lt in Ek.
    + apply nth_replace_nth_neq.
      apply (col_index_distinct _ _ _ _ _ Ek Hj). discriminate.
  - rewrite (col_index_app_new _ _ Ek) in Hk. injection Hk as <-. split.
    + rewrite <- Hlen. rewrite app_nth2 by lia. now rewrite Nat.sub_diag.
    + apply app_nth1. rewrite Hlen. now apply col_index_lt in Hj.
Qed.

Lemma columns_with_month_indices (df : DataFrame) (j : nat) :
  col_index (lit "amount") (columns df) = Some j ->
  col_index (lit "amount") (columns_with_month df) = Some j
  /\ exists k, col_index (lit "year_month") (columns_with_month df) = Some k.
Proof.
  intros Hj. unfold columns_with_month.
  destruct (col_index (lit "year_month") (columns df)) as [k|] eqn:Ek.
  - split; [exact Hj|eauto].
  - split; [now apply col_index_app_old|].
    rewrite (col_index_app_new _ _ Ek). eauto.
Qed.

Lemma is_expense_in_split (df : DataFrame) (p : period) (r : list cell) :
  is_expense_in df p r = in_period df p r && below_zero df r.
Proof.
  unfold is_expense_in, in_period, below_zero.
  destruct (month_cell _); try reflexivity.
  destruct (cell_of df (lit "amount") r); try reflexivity;
    now rewrite andb_false_r.
Qed.

Lemma lt_zero_normalised (df : DataFrame) (l : list (list cell)) :
  (forall r, In r l -> exists q, cell_of df (lit "amount") r = Num q) ->
  lt_zero (map (cell_of df (lit "amount")) l)
  = Some (Ok (map (below_zero df) l)).
Proof.
  intros H. unfold lt_zero.
  replace (map (below_zero df) l)
    with (map (fun c => match c with Num q => Qltb q 0 | _ => false end)
              (map (cell_of df (lit "amount")) l))
    by (rewrite map_map; reflexivity).
  apply pmap_map. intros c Hc. apply in_map_iff in Hc as (r & <- & Hr).
  destruct (H r Hr) as (q & ->). reflexivity.
Qed.

Lemma expenses_of_normalised (df : DataFrame) (p : period) :
  normalised df = true ->
  let month_data :=
    {| columns := columns_with_month df;
       rows := map (with_month df) (filter (in_period df p) (rows df)) |} in
  exists amount,
    expenses_of month_data
    = Some (Ok (set_col (expense_rows df p) (lit "spent") (negated amount)))
    /\ List.length amount = List.length (rows (expense_rows df p)).
Proof.
  intros H. cbv zeta.
  destruct (normalised_inv df H) as (i & j & Hi & Hj & Hrows).
  destruct (columns_with_month_indices df j Hj) as (Hj' & k & Hk).
  assert (Hcells : forall r, In r (rows df) ->
            nth j (with_month df r) NaN = cell_of df (lit "amount") r).
  { intros r Hr. destruct (Hrows r Hr) as (Hlen & _ & _).
    exact (proj2 (with_month_cells df r i j k Hi Hj Hk Hlen)). }
  unfold expenses_of. unfold get_col at 1. cbn [columns rows].
  rewrite Hj'. cbn [lift pbind]. rewrite map_map.
  rewrite (map_ext_in _ (cell_of df (lit "amount")))
    by (intros r Hr; apply Hcells; apply filter_In in Hr; tauto).
  rewrite lt_zero_normalised
    by (intros r Hr; apply filter_In in Hr;
        destruct (Hrows r (proj1 Hr)) as (_ & _ & Hq); exact Hq).
  cbn [pbind]. unfold filter_rows. cbn [columns rows].
  rewrite select_map_map. fold (expense_rows df p).
  unfold get_col. cbn [columns expense_rows]. rewrite Hj'. cbn [lift pbind].
  eexists. split; [reflexivity|]. now rewrite length_map.
Qed.

Lemma get_col_set_col_returns (df : DataFrame) (label : str) (v : list cell) :
  exists c, get_col (set_col df label v) label = Ok c.
Proof.
  unfold set_col, get_col.
  destruct (col_index label (columns df)) as [i|] eqn:E; cbn [columns rows].
  - rewrite E. eauto.
  - rewrite (col_index_app_new _ _ E). eauto.
Qed.

Lemma df_empty_no_rows (df : DataFrame) : rows df = [] -> df_empty df = true.
Proof. unfold df_empty. intros ->. now destruct (columns df). Qed.

Lemma no_expense_rows (df : DataFrame) (p : period) :
  forallb (fun r => negb (is_expense_in df p r)) (rows df) = true ->
  rows (expense_rows df p) = [].
Proof.
  intros H. cbn [rows expense_rows].
  replace (filter (below_zero df) (filter (in_period df p) (rows df)))
    with (@nil (list cell)); [reflexivity|].
  symmetry. induction (rows df) as [|r l IH]; [reflexivity|].
  simpl in H. apply andb_true_iff in H as [Hr Hl].
  rewrite is_expense_in_split in Hr. apply negb_true_iff in Hr.
  simpl. destruct (in_period df p r); simpl.
  - simpl in Hr. rewrite Hr. now apply IH.
  - now apply IH.
Qed.

Section BudgetingFacts.

Variable lower : str -> str.
Variable regex : Type.
Variable re_compile : str -> partial regex.
Variable re_search : regex -> str -> bool.

Local Abbreviation rule_loop := (eval_rule lower regex re_compile re_search).
Local Abbreviation eval := (evaluate lower regex re_compile re_search).
Local Abbreviation run := (budgeting lower regex re_compile re_search).

(** What [evaluate] comes to on a normalised table that carries the
    helper column: nothing but the loop over the rules can fail. *)
Lemma evaluate_normalised (inp : inputs) (df : DataFrame) (p : period) :
  normalised df = true ->
  selected_period inp df = Some p ->
  exists amount warned,
    let expenses := set_col (expense_rows df p) (lit "spent") (negated amount) in
    eval inp {| columns := columns_with_month df;
                rows := map (with_month df) (rows df) |}
    = if df_empty expenses then
        progress <- lift (progress_ratio 0 (overall_budget inp)) ;;
        pret {| shown := warned ++ [st_info_no_expenses];
                period_used := p; expenses_used := expenses;
                total_spend := 0; progress := progress;
                rule_results := [] |}
      else
        spent <- lift (get_col expenses (lit "spent")) ;;
        progress <- lift (progress_ratio (series_sum spent) (overall_budget inp)) ;;
        results <- pmap (rule_loop expenses) (rules inp) ;;
        pret {| shown := warned;
                period_used := p; expenses_used := expenses;
                total_spend := series_sum spent; progress := progress;
                rule_results := results |}.
Proof.
  intros H Hsel.
  destruct (normalised_inv df H) as (i & j & Hi & Hj & Hrows).
  destruct (columns_with_month_indices df j Hj) as (Hj' & k & Hk).
  destruct (expenses_of_normalised df p H) as (amount & Hexp & _).
  cbv zeta in Hexp.
  exists amount.
  exists (fst (unique_months_of inp
                 (map (fun r => month_cell (cell_of df (lit "date") r)) (rows df)))).
  cbv zeta.
  unfold evaluate. unfold get_col at 1. cbn [columns rows]. rewrite Hk.
  cbn [lift pbind]. rewrite map_map.
  rewrite (map_ext_in _ (fun r => month_cell (cell_of df (lit "date") r)))
    by (intros r Hr; destruct (Hrows r Hr) as (Hlen & _ & _);
        exact (proj1 (with_month_cells df r i j k Hi Hj Hk Hlen))).
  unfold selected_period in Hsel.
  destruct (unique_months_of inp _) as [warned options] eqn:Eopt.
  cbn [fst snd] in *. unfold selectbox. rewrite Hsel. cbn [pret pbind].
  unfold filter_rows. cbn [columns rows]. rewrite map_map.
  rewrite select_map_map.
  change (filter _ (rows df)) with (filter (in_period df p) (rows df)).
  rewrite Hexp. cbn [pbind].
  destruct (df_empty _); cbn [negb pret pbind lift]; [reflexivity|].
  destruct (get_col _ (lit "spent")); reflexivity.
Qed.

Lemma budgeting_normalised (inp : inputs) (df : DataFrame) :
  normalised df = true ->
  run inp df
  = let df1 := {| columns := columns_with_month df;
                  rows := map (with_month df) (rows df) |} in
    match eval inp df1 with
    | Some (Ok report) => (drop_col df1 (lit "year_month"), pret report)
    | failed => (df1, failed)
    end.
Proof.
  intros H. destruct (normalised_inv df H) as (i & j & Hi & _ & _).
  unfold budgeting. rewrite (get_col_cell_of df (lit "date") i Hi).
  rewrite (to_period_M_normalised df H). now rewrite set_year_month.
Qed.

(** A rule that matches no expense reports 0.0 (the guard of line 230). *)
Lemma eval_rule_no_match (expenses : DataFrame) (ru : rule)
      (cat : str) (cat_spent limit cat_progress : Q) (kws : list str)
      (matched : DataFrame) :
  rule_loop expenses ru
  = Some (Ok (Evaluated cat cat_spent limit cat_progress kws matched)) ->
  df_empty matched = true ->
  cat_spent = 0.
Proof.
  unfold eval_rule. intros H Hempty.
  destruct (keywords_of lower _) as [|k ks]; [discriminate H|].
  pinv H. pinv H. pinv H. pinv H.
  injection H as <- <- <- <- <- <-.
  rewrite Hempty in Ha1. simpl in Ha1. now injection Ha1 as <-.
Qed.

(** C8: on a normalised table and for the period the selector returns,
    the budgeting section raises nothing and gives zero-valued results on
    empty inputs.  With no expense in the selected period, and so with a
    table without rows, it returns the overall total 0.0 and the progress
    0, shows that there are no expenses and evaluates no rule, so that no
    rule reports a spending; with an empty rule list it returns the overall
    figures and no rule result; and a rule that is evaluated and matches
    no expense reports the spending 0.0. *)
Theorem budgeting_degrades_on_empty_inputs (inp : inputs) (df : DataFrame)
        (p : period) :
  normalised df = true ->
  selected_period inp df = Some p ->
  (forallb (fun r => negb (is_expense_in df p r)) (rows df) = true ->
     exists df' r,
       run inp df = (df', Some (Ok r))
       /\ total_spend r = 0 /\ progress r == 0 /\ rule_results r = []
       /\ In st_info_no_expenses (shown r))
  /\ (rows df = [] ->
        exists df' r,
          run inp df = (df', Some (Ok r))
          /\ total_spend r = 0 /\ progress r == 0 /\ rule_results r = [])
  /\ (rules inp = [] ->
        exists df' r, run inp df = (df', Some (Ok r)) /\ rule_results r = [])
  /\ (forall expenses ru cat cat_spent limit cat_progress kws matched,
        rule_loop expenses ru
        = Some (Ok (Evaluated cat cat_spent limit cat_progress kws matched)) ->
        df_empty matched = true ->
        cat_spent = 0).
Proof.
  intros H Hsel.
  destruct (evaluate_normalised inp df p H Hsel) as (amount & warned & Heval).
  cbv zeta in Heval.
  assert (Hnone : forallb (fun r => negb (is_expense_in df p r)) (rows df) = true ->
     exists df' r,
       run inp df = (df', Some (Ok r))
       /\ total_spend r = 0 /\ progress r == 0 /\ rule_results r = []
       /\ In st_info_no_expenses (shown r)).
  { intros Hno. rewrite (budgeting_normalised inp df H). cbv zeta.
    rewrite Heval.
    assert (Hempty : df_empty (set_col (expense_rows df p) (lit "spent")
                                       (negated amount)) = true).
    { apply df_empty_no_rows. unfold set_col.
      rewrite (no_expense_rows df p Hno).
      now destruct (col_index (lit "spent") (columns (expense_rows df p))). }
    rewrite Hempty.
    destruct (progress_ratio_of_zero (overall_budget inp)) as (pr & -> & Hpr).
    cbn [lift pbind pret]. do 2 eexists. split; [reflexivity|].
    cbn [total_spend progress rule_results shown].
    repeat split; try reflexivity; [exact Hpr|].
    apply in_or_app. right. now left. }
  split; [exact Hnone|]. split; [|split; [|exact eval_rule_no_match]].
  - intros Hrows. rewrite Hrows in Hnone.
    destruct (Hnone eq_refl) as (df' & r & Hr & Ht & Hp & Hrr & _). eauto 7.
  - intros Hrules. rewrite (budgeting_normalised inp df H). cbv zeta.
    rewrite Heval. rewrite Hrules.
    destruct (df_empty _).
    + destruct (progress_ratio_returns 0 (overall_budget inp)) as (pr & ->).
      cbn [lift pbind pret]. do 2 eexists. split; reflexivity.
    + destruct (get_col_set_col_returns (expense_rows df p) (lit "spent")
                  (negated amount)) as (spent & ->).
      cbn [lift pbind].
      destruct (progress_ratio_returns (series_sum spent) (overall_budget inp))
        as (pr & ->).
      cbn [lift pbind pret pmap]. do 2 eexists. split; reflexivity.
Qed.

(** Without a column named [year_month] in the table, setting the helper
    column and dropping it again gives the table back. *)
Lemma helper_column_round_trip (df : DataFrame) :
  normalised df = true ->
  col_index (lit "year_month") (columns df) = None ->
  drop_col {| columns := columns_with_month df;
              rows := map (with_month df) (rows df) |} (lit "year_month") = df.
Proof.
  intros H Hnone. destruct (normalised_inv df H) as (i & j & _ & _ & Hrows).
  unfold drop_col, columns_with_month, with_month. cbn [columns rows].
  rewrite Hnone. rewrite (col_index_app_new _ _ Hnone).
  rewrite remove_nth_last, map_map.
  rewrite (map_ext_in _ (fun r => r)).
  - rewrite map_id. now destruct df.
  - intros r Hr. destruct (Hrows r Hr) as (<- & _ & _). apply remove_nth_last.
Qed.

(** When the budgeting section runs to its end on a normalised table that
    has no column named [year_month], the table is left as it was. *)
Lemma budgeting_leaves_table (inp : inputs) (df df' : DataFrame)
      (r : budget_report) :
  normalised df = true ->
  col_index (lit "year_month") (columns df) = None ->
  run inp df = (df', Some (Ok r)) ->
  df' = df.
Proof.
  intros H Hnone Hrun. rewrite (budgeting_normalised inp df H) in Hrun.
  cbv zeta in Hrun.
  destruct (eval inp _) as [[report|e]|]; try discriminate Hrun.
  rewrite (helper_column_round_trip df H Hnone) in Hrun. congruence.
Qed.

End BudgetingFacts.

Lemma budgeting_degrades_on_empty_inputs_witness :
  normalised income_only = true
  /\ selected_period default_inputs income_only = Some (2024, 9)%Z
  /\ exists df' r,
       budgeting_ascii default_inputs income_only = (df', Some (Ok r))
       /\ total_spend r = 0 /\ progress r == 0 /\ rule_results r = [].
Proof.
  split; [reflexivity|]. split; [reflexivity|].
  destruct (budgeting_degrades_on_empty_inputs ascii_lower fragment
              re_compile_fragment re_search_fragment default_inputs income_only
              (2024, 9)%Z eq_refl eq_refl) as (Hnone & _ & _ & _).
  destruct (Hnone eq_refl) as (df' & r & Hrun & Ht & Hp & Hr & _).
  exists df', r. repeat split; assumption.
Defined.

(** ** The progress shown is the progress expression *)

Section ProgressFacts.

Variable lower : str -> str.
Variable regex : Type.
Variable re_compile : str -> partial regex.
Variable re_search : regex -> str -> bool.

Lemma eval_rule_progress_ratio (expenses : DataFrame) (ru : rule)
      (cat : str) (cat_spent limit cat_progress : Q) (kws : list str)
      (matched : DataFrame) :
  eval_rule lower regex re_compile re_search expenses ru
  = Some (Ok (Evaluated cat cat_spent limit cat_progress kws matched)) ->
  limit = match budget ru with Some b => b | None => 0 end
  /\ progress_ratio cat_spent limit = Ok cat_progress.
Proof.
  unfold eval_rule. intros H.
  destruct (keywords_of lower _) as [|k ks]; [discriminate H|].
  pinv H. pinv H. pinv H. pinv H.
  injection H as <- <- <- <- <- <-.
  split; [reflexivity|]. unfold lift in Ha2. congruence.
Qed.

Lemma evaluate_progress_ratio (inp : inputs) (df : DataFrame)
      (r : budget_report) :
  evaluate lower regex re_compile re_search inp df = Some (Ok r) ->
  progress_ratio (total_spend r) (overall_budget inp) = Ok (progress r).
Proof.
  unfold evaluate. intros H. pinv H.
  destruct (unique_months_of inp a) as [warned options].
  pinv H. pinv H. pinv H. pinv H. unfold lift in Ha3.
  destruct (df_empty a1).
  - injection H as <-. cbn [total_spend progress]. congruence.
  - pinv H. injection H as <-. cbn [total_spend progress]. congruence.
Qed.

End ProgressFacts.

(** C5: whatever was spent, a budget or limit that is zero (or negative)
    gives the progress 0.0, because the division is not evaluated: this
    holds of the progress expression, of the overall progress that the
    budgeting section reports for such an overall budget, and of the
    progress of every rule it evaluates with such a limit; and for every
    budget or limit the progress expression returns a value, so that no
    division by zero is raised. *)
Theorem zero_budget_gives_zero_progress (spent limit : Q) :
  limit <= 0 ->
  progress_ratio spent limit = Ok 0
  /\ (forall lower regex re_compile re_search inp df r,
        overall_budget inp = limit ->
        evaluate lower regex re_compile re_search inp df = Some (Ok r) ->
        progress r = 0)
  /\ (forall lower regex re_compile re_search expenses ru
             cat cat_spent cat_progress kws matched,
        eval_rule lower regex re_compile re_search expenses ru
        = Some (Ok (Evaluated cat cat_spent limit cat_progress kws matched)) ->
        cat_progress = 0)
  /\ (forall spent' limit', exists p, progress_ratio spent' limit' = Ok p).
Proof.
  intros H. split; [now apply progress_ratio_nonpositive|].
  split; [|split; [|exact progress_ratio_returns]].
  - intros lower regex re_compile re_search inp df r Hb Hr.
    apply evaluate_progress_ratio in Hr. rewrite Hb in Hr.
    rewrite (progress_ratio_nonpositive _ _ H) in Hr. congruence.
  - intros lower regex re_compile re_search expenses ru
           cat cat_spent cat_progress kws matched Hr.
    apply eval_rule_progress_ratio in Hr as [_ Hr].
    rewrite (progress_ratio_nonpositive _ _ H) in Hr. congruence.
Qed.

Lemma zero_budget_gives_zero_progress_witness :
  0 <= 0 /\ progress_ratio 367.88 0 = Ok 0.
Proof.
  split; [apply Qle_refl|].
  exact (proj1 (zero_budget_gives_zero_progress 367.88 0 (Qle_refl 0))).
Defined.

(** ** Keywords that are plain words *)

Lemma is_special_false (c : N) :
  is_special c = false ->
  (c =? 46)%N = false /\ (c =? 92)%N = false /\ (c =? 41)%N = false
  /\ (c =? 40)%N = false /\ (c =? 42)%N = false /\ (c =? 43)%N = false
  /\ (c =? 63)%N = false.
Proof.
  unfold is_special. cbn [existsb]. intros H.
  repeat (apply orb_false_iff in H; destruct H as [? H]).
  repeat split; assumption.
Qed.

Lemma parse_atoms_plain (k : str) :
  plain k = true -> parse_atoms k = pret (map Lit k).
Proof.
  unfold plain. induction k as [|c k IH]; simpl; intros H; [reflexivity|].
  apply andb_true_iff in H as [Hc Hk]. apply negb_true_iff in Hc.
  destruct (is_special_false c Hc) as (-> & -> & -> & -> & _).
  rewrite Hc, (IH Hk). reflexivity.
Qed.

Lemma re_compile_fragment_plain (k : str) :
  plain k = true -> re_compile_fragment k = pret (map Lit k).
Proof.
  intros H. unfold re_compile_fragment. destruct k as [|c k].
  - reflexivity.
  - assert (Hc : is_special c = false).
    { unfold plain in H. simpl in H. apply andb_true_iff in H as [Hc _].
      now apply negb_true_iff in Hc. }
    destruct (is_special_false c Hc) as (_ & _ & _ & _ & -> & -> & ->).
    now apply parse_atoms_plain.
Qed.

Lemma match_here_literal (k s : str) :
  match_here (map Lit k) s = startswith s k.
Proof.
  revert s; induction k as [|x k IH]; intros [|y s]; simpl; try reflexivity.
  now rewrite IH.
Qed.

Lemma re_search_fragment_literal (k s : str) :
  re_search_fragment (map Lit k) s = substring k s.
Proof.
  induction s as [|y s IH]; simpl.
  - now rewrite match_here_literal.
  - now rewrite match_here_literal, IH.
Qed.

(** For keywords that are plain words the mask is the one of the literal
    search: a description is matched when it contains one of them. *)
Lemma mask_loop_plain (desc : list str) (kws : list str) (f : str -> bool) :
  forallb plain kws = true ->
  mask_loop fragment re_compile_fragment re_search_fragment
            desc (map f desc) kws
  = pret (map (fun d => f d || existsb (fun k => substring k d) kws) desc).
Proof.
  revert f; induction kws as [|k kws IH]; intros f H; simpl.
  - apply f_equal. apply map_ext. intros d. now rewrite orb_false_r.
  - apply andb_true_iff in H as [Hk Hkws].
    unfold str_contains. rewrite (re_compile_fragment_plain k Hk).
    cbn [pret pbind]. rewrite map2_map_both.
    rewrite (IH (fun d => f d || re_search_fragment (map Lit k) d) Hkws).
    apply f_equal. apply map_ext. intros d.
    now rewrite re_search_fragment_literal, orb_assoc.
Qed.

(** A rule whose keywords are plain words matches the expenses whose
    lower-cased description, the empty string when it is missing, contains
    one of the keywords. *)
Lemma eval_rule_plain_keywords (expenses : DataFrame) (ru : rule)
      (description : list cell) (i : nat) :
  let kws := keywords_of ascii_lower (strip (or_empty (keywords ru))) in
  kws <> [] ->
  forallb plain kws = true ->
  get_col expenses (lit "description") = Ok description ->
  col_index (lit "spent") (columns expenses) = Some i ->
  exists cat cat_spent limit cat_progress,
    eval_rule_ascii expenses ru
    = Some (Ok (Evaluated cat cat_spent limit cat_progress kws
                  (filter_rows expenses
                     (map (fun d => existsb (fun k => substring k d) kws)
                          (desc_lower_of ascii_lower description))))).
Proof.
  intros kws Hne Hplain Hdesc Hspent.
  unfold eval_rule_ascii, eval_rule. fold kws.
  destruct kws as [|k ks] eqn:Ek; [congruence|]. rewrite <- Ek in *.
  rewrite Hdesc. cbn [lift pbind].
  rewrite (mask_loop_plain _ kws (fun _ => false) Hplain). cbn [pret pbind].
  set (matched := filter_rows expenses _).
  assert (Hcol : exists c, get_col matched (lit "spent") = Ok c).
  { unfold get_col, matched, filter_rows. cbn [columns]. rewrite Hspent. eauto. }
  destruct Hcol as (c & Hc).
  destruct (progress_ratio_returns
              (if negb (df_empty matched) then series_sum c else 0)
              (match budget ru with Some b => b | None => 0 end)) as (pr & Hpr).
  destruct (df_empty matched); cbn [negb] in *.
  - cbn [pret pbind lift]. rewrite Hpr. cbn [pbind pret].
    do 4 eexists. reflexivity.
  - rewrite Hc. cbn [pret pbind lift]. rewrite Hpr. cbn [pbind pret].
    do 4 eexists. reflexivity.
Qed.

(** ** One more keyword *)

Section KeywordFacts.

Variable regex : Type.
Variable re_compile : str -> partial regex.
Variable re_search : regex -> str -> bool.

Local Abbreviation loop := (mask_loop regex re_compile re_search).

Lemma mask_loop_app (desc : list str) (mask : list bool) (ks1 ks2 : list str) :
  loop desc mask (ks1 ++ ks2)
  = (m <- loop desc mask ks1 ;; loop desc m ks2).
Proof.
  revert mask; induction ks1 as [|k ks1 IH]; intros mask; simpl; [reflexivity|].
  destruct (str_contains regex re_compile re_search desc k) as [[hits|e]|];
    simpl; [apply IH|reflexivity|reflexivity].
Qed.

Lemma map2_length {A B C} (f : A -> B -> C) (l : list A) (m : list B) :
  List.length l = List.length m ->
  List.length (map2 f l m) = List.length l.
Proof.
  revert m; induction l as [|a l IH]; intros [|b m]; simpl; intros H;
    try reflexivity; try discriminate. f_equal. apply IH. congruence.
Qed.

Lemma mask_loop_length (desc : list str) (mask m : list bool) (ks : list str) :
  List.length mask = List.length desc ->
  loop desc mask ks = Some (Ok m) ->
  List.length m = List.length desc.
Proof.
  revert mask; induction ks as [|k ks IH]; intros mask Hlen H; simpl in H.
  - injection H as <-. exact Hlen.
  - pinv H. unfold str_contains in Ha. pinv Ha. injection Ha as <-.
    apply (IH _ (eq_trans (map2_length orb mask _
                             (eq_trans Hlen (eq_sym (length_map _ _)))) Hlen) H).
Qed.

(** The mask with one more keyword: the evaluation without that keyword
    succeeds as well, and its mask is pointwise below. *)
Lemma added_keyword_mask (desc : list str) (mask m' : list bool)
      (ks : list str) (k : str) :
  List.length mask = List.length desc ->
  loop desc mask (ks ++ [k]) = Some (Ok m') ->
  exists m hits,
    loop desc mask ks = Some (Ok m)
    /\ m' = map2 orb m hits
    /\ List.length m = List.length desc
    /\ List.length hits = List.length desc.
Proof.
  intros Hlen H. rewrite mask_loop_app in H. pinv H. simpl in H.
  pinv H. injection H as <-. unfold str_contains in Ha0. pinv Ha0.
  injection Ha0 as <-. exists a, (map (re_search a1) desc).
  split; [exact Ha|]. split; [reflexivity|].
  split; [exact (mask_loop_length _ _ _ _ Hlen Ha)|apply length_map].
Qed.

End KeywordFacts.

Lemma select_or_incl {A} (l : list A) (m hits : list bool) :
  List.length m = List.length l ->
  List.length hits = List.length l ->
  incl (select l m) (select l (map2 orb m hits)).
Proof.
  revert m hits; induction l as [|x l IH]; intros [|b m] [|h hits]; simpl;
    intros Hm Hh; try discriminate; try (intros y []).
  assert (IH' := IH m hits (f_equal pred Hm) (f_equal pred Hh)).
  destruct b; simpl.
  - intros y [<-|Hy]; [now left|right; now apply IH'].
  - destruct h; [intros y Hy; right; now apply IH'|exact IH'].
Qed.

(** With amounts spent that are not negative, the sum over the rows of
    the larger mask is not smaller. *)
Lemma select_or_sum (f : list cell -> cell) (l : list (list cell))
      (m hits : list bool) :
  (forall r, In r l -> exists q, f r = Num q /\ 0 <= q) ->
  List.length m = List.length l ->
  List.length hits = List.length l ->
  series_sum (map f (select l m))
  <= series_sum (map f (select l (map2 orb m hits))).
Proof.
  revert m hits; induction l as [|x l IH]; intros [|b m] [|h hits]; simpl;
    intros Hf Hm Hh; try discriminate; try apply Qle_refl.
  assert (IH' := IH m hits (fun r Hr => Hf r (or_intror Hr))
                    (f_equal pred Hm) (f_equal pred Hh)).
  destruct (Hf x (or_introl eq_refl)) as (q & Hq & Hpos).
  destruct b; simpl.
  - rewrite Hq. now apply Qplus_le_r.
  - destruct h; simpl; [|exact IH'].
    rewrite Hq. rewrite <- (Qplus_0_l (series_sum (map f (select l m)))).
    now apply Qplus_le_compat.
Qed.

(** ** The keyword text with more keywords appended *)

Lemma split_nonempty (sep : N) (s : str) : split sep s <> [].
Proof.
  destruct s as [|c s]; simpl; [discriminate|].
  destruct (c =? sep)%N; [discriminate|].
  destruct (split sep s); discriminate.
Qed.

Lemma split_app (sep : N) (a b : str) :
  split sep (a ++ sep :: b) = split sep a ++ split sep b.
Proof.
  induction a as [|c a IH]; simpl.
  - now rewrite N.eqb_refl.
  - destruct (c =? sep)%N; [now rewrite IH|].
    rewrite IH. destruct (split sep a) as [|h r] eqn:E; [|reflexivity].
    now apply split_nonempty in E.
Qed.

Lemma space_is_not_comma (c : N) : isspace c = true -> (c =? 44)%N = false.
Proof.
  intros H. destruct (c =? 44)%N eqn:E; [|reflexivity].
  apply N.eqb_eq in E. subst c. discriminate H.
Qed.

Lemma strip_cons_space (c : N) (h : str) :
  isspace c = true -> strip (c :: h) = strip h.
Proof. intros H. unfold strip. simpl. now rewrite H. Qed.

Lemma tokens_lstrip (x : str) :
  map strip (split 44 (lstrip x)) = map strip (split 44 x).
Proof.
  induction x as [|c x IH]; [reflexivity|].
  cbn [lstrip]. destruct (isspace c) eqn:Hc; [|reflexivity].
  rewrite IH. cbn [split]. rewrite (space_is_not_comma c Hc).
  destruct (split 44 x) as [|h r] eqn:E; [now apply split_nonempty in E|].
  cbn [map]. now rewrite (strip_cons_space c h Hc).
Qed.

Lemma rstrip_snoc (x : str) (c : N) :
  rstrip (x ++ [c]) = if isspace c then rstrip x else x ++ [c].
Proof.
  unfold rstrip. rewrite rev_app_distr. simpl.
  destruct (isspace c); [reflexivity|]. simpl. now rewrite rev_involutive.
Qed.

Lemma split_snoc (x : str) (c : N) :
  (c =? 44)%N = false ->
  split 44 (x ++ [c])
  = removelast (split 44 x) ++ [last (split 44 x) [] ++ [c]].
Proof.
  intros Hc. induction x as [|d x IH].
  - simpl. now rewrite Hc.
  - cbn [app split]. rewrite IH.
    destruct (split 44 x) as [|h r] eqn:E; [now apply split_nonempty in E|].
    destruct (d =? 44)%N.
    + destruct r; reflexivity.
    + destruct r; reflexivity.
Qed.

Lemma lstrip_snoc_space (h : str) (c : N) :
  isspace c = true ->
  lstrip (h ++ [c]) = if forallb isspace h then [] else lstrip h ++ [c].
Proof.
  intros Hc. induction h as [|d h IH]; simpl.
  - now rewrite Hc.
  - destruct (isspace d); simpl; [exact IH|reflexivity].
Qed.

Lemma strip_snoc_space (h : str) (c : N) :
  isspace c = true -> strip (h ++ [c]) = strip h.
Proof.
  intros Hc. unfold strip. rewrite (lstrip_snoc_space h c Hc).
  destruct (forallb isspace h) eqn:Hh.
  - now rewrite (lstrip_spaces h Hh).
  - now rewrite rstrip_snoc, Hc.
Qed.

Lemma tokens_rstrip (x : str) :
  map strip (split 44 (rstrip x)) = map strip (split 44 x).
Proof.
  induction x as [|c x IH] using rev_ind; [reflexivity|].
  rewrite rstrip_snoc. destruct (isspace c) eqn:Hc; [|reflexivity].
  rewrite IH. rewrite (split_snoc x c (space_is_not_comma c Hc)).
  rewrite map_app. cbn [map]. rewrite (strip_snoc_space _ c Hc).
  change [strip (last (split 44 x) [])] with (map strip [last (split 44 x) []]).
  rewrite <- map_app. apply f_equal.
  apply app_removelast_last. apply split_nonempty.
Qed.

Lemma tokens_strip (x : str) :
  map strip (split 44 (strip x)) = map strip (split 44 x).
Proof. unfold strip. now rewrite tokens_rstrip, tokens_lstrip. Qed.

Section AddedKeywords.

Variable lower : str -> str.
Variable regex : Type.
Variable re_compile : str -> partial regex.
Variable re_search : regex -> str -> bool.

Local Abbreviation loop := (mask_loop regex re_compile re_search).
Local Abbreviation rule_loop := (eval_rule lower regex re_compile re_search).

Lemma keywords_of_tokens (x : str) :
  keywords_of lower x
  = map lower (filter (fun k => negb (str_eqb k [])) (map strip (split 44 x))).
Proof.
  unfold keywords_of. rewrite filter_map_comm, map_map. reflexivity.
Qed.

(** The keywords of the text with [,extra] appended are the keywords of
    the text followed by those of [extra]. *)
Lemma keywords_of_added (s extra : str) :
  keywords_of lower (strip (s ++ 44%N :: extra))
  = keywords_of lower (strip s) ++ keywords_of lower (strip extra).
Proof.
  rewrite !keywords_of_tokens, !tokens_strip, split_app.
  now rewrite map_app, filter_app, map_app.
Qed.

Lemma map2_orb_assoc (m h1 h2 : list bool) :
  map2 orb (map2 orb m h1) h2 = map2 orb m (map2 orb h1 h2).
Proof.
  revert h1 h2; induction m as [|b m IH]; intros [|x h1] [|y h2]; simpl;
    try reflexivity. now rewrite IH, orb_assoc.
Qed.

(** The loop only adds to the mask. *)
Lemma mask_loop_grows (desc : list str) (ks : list str) :
  forall mask m',
    List.length mask = List.length desc ->
    loop desc mask ks = Some (Ok m') ->
    exists hits, m' = map2 orb mask hits /\ List.length hits = List.length desc.
Proof.
  induction ks as [|k ks IH]; intros mask m' Hlen H; simpl in H.
  - injection H as <-. exists (map (fun _ => false) desc). split.
    + clear -Hlen. revert desc Hlen.
      induction mask as [|b mask IHm]; intros [|d desc] Hlen; simpl;
        try discriminate; [reflexivity|].
      rewrite orb_false_r. f_equal. apply IHm. now injection Hlen.
    + apply length_map.
  - pinv H. unfold str_contains in Ha. pinv Ha. injection Ha as <-.
    assert (Hh : List.length (map (re_search a0) desc) = List.length desc)
      by apply length_map.
    destruct (IH _ m' (eq_trans (map2_length orb mask _ (eq_trans Hlen (eq_sym Hh)))
                                Hlen) H) as (hits & -> & Hhits).
    exists (map2 orb (map (re_search a0) desc) hits). split.
    + apply map2_orb_assoc.
    + rewrite map2_length; congruence.
Qed.

(** What line 230 computes, when the expenses carry the [spent] column. *)
Lemma cat_spent_value (expenses : DataFrame) (mask : list bool) (i : nat) :
  col_index (lit "spent") (columns expenses) = Some i ->
  (if negb (df_empty (filter_rows expenses mask))
   then spent <- lift (get_col (filter_rows expenses mask) (lit "spent")) ;;
        pret (series_sum spent)
   else pret 0)
  = pret (series_sum (map (fun r => nth i r NaN) (select (rows expenses) mask))).
Proof.
  intros Hi. unfold get_col, filter_rows, df_empty. cbn [columns rows].
  rewrite Hi. destruct (columns expenses) as [|c cols]; [discriminate Hi|].
  destruct (select (rows expenses) mask); reflexivity.
Qed.

(** Where the rule with [,extra] appended to its keyword text is
    evaluated without an error, the rule itself is evaluated without an
    error too (or has no keyword), and it matches no expense that the
    longer rule does not match and reports no larger spending. *)
Lemma added_keywords_rule (expenses : DataFrame) (ru ru' : rule)
      (extra : str) (i : nat) (cat' : str) (s' l' p' : Q) (kws' : list str)
      (m' : DataFrame) :
  category ru' = category ru ->
  budget ru' = budget ru ->
  keywords ru' = Some (or_empty (keywords ru) ++ 44%N :: extra) ->
  col_index (lit "spent") (columns expenses) = Some i ->
  (forall r, In r (rows expenses) -> exists q, nth i r NaN = Num q /\ 0 <= q) ->
  rule_loop expenses ru' = Some (Ok (Evaluated cat' s' l' p' kws' m')) ->
  rule_loop expenses ru = Some (Ok (NoKeywords cat'))
  \/ exists s p kws m,
       rule_loop expenses ru = Some (Ok (Evaluated cat' s l' p kws m))
       /\ incl (rows m) (rows m')
       /\ s <= s'.
Proof.
  intros Hcat Hbud Hkw Hi Hpos H.
  unfold eval_rule in *. rewrite Hcat, Hbud, Hkw in H. cbn [or_empty] in H.
  rewrite keywords_of_added in H.
  set (kws := keywords_of lower (strip (or_empty (keywords ru)))) in *.
  set (more := keywords_of lower (strip extra)) in *.
  destruct (kws ++ more) as [|k0 ks0] eqn:Eall; [discriminate H|].
  rewrite <- Eall in H. clear k0 ks0 Eall.
  pinv H. rewrite Ha, pbind_ret. cbv beta zeta.
  pinv H. rewrite (cat_spent_value expenses a0 i Hi) in H. cbn [pret pbind] in H.
  pinv H. injection H as <- <- <- <- <- <-.
  destruct kws as [|k ks] eqn:Ek; [now left|]. right. rewrite <- Ek in *.
  rewrite mask_loop_app in Ha0. pinv Ha0.
  set (desc := desc_lower_of lower a) in *.
  assert (Hinit : List.length (map (fun _ : str => false) desc) = List.length desc)
    by apply length_map.
  assert (Hlen : List.length a2 = List.length desc)
    by exact (mask_loop_length _ _ _ _ _ _ _ Hinit Ha2).
  destruct (mask_loop_grows desc more a2 a0 Hlen Ha0) as (hits & -> & Hhits).
  assert (Hrows : List.length desc = List.length (rows expenses)).
  { unfold desc, desc_lower_of. rewrite length_map.
    unfold lift, get_col in Ha.
    destruct (col_index (lit "description") (columns expenses)); [|discriminate].
    injection Ha as <-. apply length_map. }
  rewrite Ha2, pbind_ret. cbv beta zeta.
  rewrite (cat_spent_value expenses a2 i Hi).
  cbn [pret pbind].
  destruct (progress_ratio_returns
              (series_sum (map (fun r => nth i r NaN) (select (rows expenses) a2)))
              (match budget ru with Some b => b | None => 0 end)) as (pr & Hpr).
  rewrite Hpr. cbn [lift pbind pret].
  do 4 eexists. split; [reflexivity|]. cbn [rows filter_rows]. split.
  - apply select_or_incl; congruence.
  - apply select_or_sum; [exact Hpos|congruence|congruence].
Qed.

End AddedKeywords.

(** ** The rules on the sample (lines 209-241) *)

(** C6: on the sample, whose only month 2024-09 is the selected period,
    the Transport rule (keywords uber, lyft, shell, esso, petro, gas)
    matches exactly the two transactions UBER Ride (18.70) and Shell Gas
    Station (60.00), and its cat_spent is 78.70. *)
Theorem transport_rule_on_sample :
  exists r cat_spent cat_progress matched,
    snd (budgeting_ascii default_inputs sample_df) = Some (Ok r)
    /\ period_used r = (2024, 9)%Z
    /\ nth_error (rule_results r) 1
       = Some (Evaluated (lit "Transport") cat_spent 150 cat_progress
                 (map lit ["uber"; "lyft"; "shell"; "esso"; "petro"; "gas"]%string)
                 matched)
    /\ map (fun row => (cell_of matched (lit "description") row,
                        cell_of matched (lit "spent") row)) (rows matched)
       = [(Text (lit "UBER Ride"), Num 18.70);
          (Text (lit "Shell Gas Station"), Num 60.00)]
    /\ cat_spent == 78.70.
Proof.
  do 4 eexists. split; [vm_compute; reflexivity|].
  split; [reflexivity|]. split; [vm_compute; reflexivity|].
  split; vm_compute; reflexivity.
Qed.

(** C2, at a keyword that is not a plain word: with the single keyword
    [.] the rule matches all seven expenses of the sample, although no
    description contains a full stop.  The keyword is handed to
    [str.contains], which reads it as a regular expression. *)
Theorem dot_keyword_matches_without_substring :
  exists r cat_spent cat_progress matched,
    snd (budgeting_ascii (inputs_with (one_rule ".")) sample_df) = Some (Ok r)
    /\ rule_results r
       = [Evaluated (lit "Transport") cat_spent 150 cat_progress [lit "."] matched]
    /\ rows matched = rows (expenses_used r)
    /\ List.length (rows matched) = 7%nat
    /\ forallb (fun row =>
                  match cell_of matched (lit "description") row with
                  | Text s => negb (substring (lit ".") (ascii_lower s))
                  | _ => false
                  end) (rows matched) = true.
Proof.
  do 4 eexists. split; [vm_compute; reflexivity|].
  split; [vm_compute; reflexivity|].
  repeat split; vm_compute; reflexivity.
Qed.

(** C4, at a keyword that is not a well-formed pattern: with the keyword
    [uber] the rule matches one expense of the sample and reports 18.70;
    with the keyword [(] added, the evaluation raises [re.error] and
    reports nothing. *)
Theorem bad_keyword_added_raises :
  (exists r cat_spent cat_progress matched,
      snd (budgeting_ascii (inputs_with (one_rule "uber")) sample_df) = Some (Ok r)
      /\ rule_results r
         = [Evaluated (lit "Transport") cat_spent 150 cat_progress [lit "uber"] matched]
      /\ List.length (rows matched) = 1%nat
      /\ cat_spent == 18.70)
  /\ snd (budgeting_ascii (inputs_with (one_rule "uber,(")) sample_df)
     = Some (Raise re_error).
Proof.
  split; [|vm_compute; reflexivity].
  do 4 eexists. split; [vm_compute; reflexivity|].
  split; [vm_compute; reflexivity|].
  split; vm_compute; reflexivity.
Qed.

(** C10, at a file that brings a column named [year_month]: the budgeting
    section runs to its end, and the table it leaves has lost that
    column. *)
Theorem year_month_column_lost :
  col_index (lit "year_month") (columns fiscal_df) = Some 3%nat
  /\ normalised fiscal_df = true
  /\ exists df' r,
       budgeting_ascii default_inputs fiscal_df = (df', Some (Ok r))
       /\ columns df' = map lit ["date"; "amount"; "description"]%string
       /\ df' <> fiscal_df.
Proof.
  split; [reflexivity|]. split; [reflexivity|].
  do 2 eexists. split; [vm_compute; reflexivity|].
  split; [reflexivity|]. intros H.
  apply (f_equal (fun d => List.length (columns d))) in H.
  vm_compute in H. discriminate H.
Qed.

(* ================================================================== *)
(** * Further properties of the loader (lines 14-65) *)

Lemma clean_line_cons (c : N) (l : str) :
  clean_line (c :: l) = true ->
  (c =? 13)%N = false /\ is_linebreak c = false /\ clean_line l = true.
Proof.
  unfold clean_line. simpl. intros H. apply andb_true_iff in H as [Hc Hl].
  apply negb_true_iff, orb_false_iff in Hc. tauto.
Qed.

Lemma clean_line_rev (l : str) : clean_line l = true -> clean_line (rev l) = true.
Proof. apply forallb_rev. Qed.

(** A stretch without line boundary goes into the current line. *)
Lemma splitlines_from_clean (l cur rest : str) :
  clean_line l = true ->
  splitlines_from cur (l ++ rest) = splitlines_from (rev l ++ cur) rest.
Proof.
  revert cur; induction l as [|c l IH]; intros cur H; [reflexivity|].
  destruct (clean_line_cons c l H) as (H13 & Hbr & Hl).
  cbn [app splitlines_from]. rewrite H13, Hbr, (IH (c :: cur) Hl).
  cbn [rev]. now rewrite <- app_assoc.
Qed.

(** The lines that [splitlines] returns hold no line boundary. *)
Lemma splitlines_from_lines_clean (n : nat) :
  forall t cur,
    (List.length t <= n)%nat ->
    clean_line cur = true ->
    Forall (fun l => clean_line l = true) (splitlines_from cur t).
Proof.
  induction n as [|n IH]; intros t cur Hlen Hcur.
  - destruct t; [|simpl in Hlen; lia]. simpl.
    destruct cur; constructor; [now apply (clean_line_rev (n :: cur))|constructor].
  - destruct t as [|c t].
    { simpl. destruct cur; constructor;
        [now apply (clean_line_rev (n0 :: cur))|constructor]. }
    simpl in Hlen. cbn [splitlines_from].
    assert (Hline : clean_line (rev cur) = true) by now apply clean_line_rev.
    destruct (c =? 13)%N eqn:H13.
    + destruct t as [|d t].
      * constructor; [exact Hline|]. simpl. constructor.
      * simpl in Hlen. destruct (d =? 10)%N.
        -- constructor; [exact Hline|]. apply IH; [lia|reflexivity].
        -- constructor; [exact Hline|]. apply IH; [simpl; lia|reflexivity].
    + destruct (is_linebreak c) eqn:Hbr.
      * constructor; [exact Hline|]. apply IH; [lia|reflexivity].
      * apply IH; [lia|]. unfold clean_line. simpl. rewrite H13, Hbr. exact Hcur.
Qed.

Lemma splitlines_lines_clean (text : str) :
  Forall (fun l => clean_line l = true) (splitlines text).
Proof.
  apply (splitlines_from_lines_clean (List.length text)); [lia|reflexivity].
Qed.

Lemma splitlines_one_line (p : str) :
  clean_line p = true ->
  splitlines p = match p with [] => [] | _ => [p] end.
Proof.
  intros H. unfold splitlines.
  rewrite <- (app_nil_r p) at 1. rewrite (splitlines_from_clean p [] [] H).
  rewrite app_nil_r. simpl. destruct p as [|c p]; [reflexivity|].
  destruct (rev (c :: p)) eqn:E.
  - apply (f_equal (@List.length N)) in E. rewrite length_rev in E. discriminate E.
  - now rewrite <- E, rev_involutive.
Qed.

(** After a line without boundary, a newline, or a carriage return and a
    newline, ends that line. *)
Lemma splitlines_line_then (p sep rest : str) :
  sep = [10%N] \/ sep = [13; 10]%N ->
  clean_line p = true ->
  splitlines (p ++ sep ++ rest) = p :: splitlines rest.
Proof.
  intros Hsep H. unfold splitlines.
  rewrite (splitlines_from_clean p [] _ H), app_nil_r.
  destruct Hsep as [->| ->]; simpl; now rewrite rev_involutive.
Qed.

Lemma splitlines_join (sep : str) (ls : list str) :
  sep = [10%N] \/ sep = [13; 10]%N ->
  forallb clean_line ls = true ->
  filter (fun line => negb (blank_line line)) (splitlines (join sep ls))
  = filter (fun line => negb (blank_line line)) ls.
Proof.
  intros Hsep. induction ls as [|p ls IH]; intros H; [reflexivity|].
  simpl in H. apply andb_true_iff in H as [Hp Hls].
  destruct ls as [|q ls].
  - cbn [join]. rewrite (splitlines_one_line p Hp). now destruct p.
  - change (join sep (p :: q :: ls)) with (p ++ sep ++ join sep (q :: ls)).
    rewrite (splitlines_line_then p sep _ Hsep Hp).
    cbn [filter]. now rewrite (IH Hls).
Qed.

Lemma splitlines_join_exact (ls : list str) :
  forallb (fun l => clean_line l && negb (blank_line l)) ls = true ->
  splitlines (join [10%N] ls) = ls.
Proof.
  induction ls as [|p ls IH]; intros H; [reflexivity|].
  simpl in H. apply andb_true_iff in H as [Hp Hls].
  apply andb_true_iff in Hp as [Hp Hnb].
  destruct ls as [|q ls].
  - cbn [join]. rewrite (splitlines_one_line p Hp).
    destruct p; [discriminate Hnb|reflexivity].
  - change (join [10%N] (p :: q :: ls)) with (p ++ [10%N] ++ join [10%N] (q :: ls)).
    rewrite (splitlines_line_then p [10%N] _ (or_introl eq_refl) Hp).
    now rewrite (IH Hls).
Qed.

Lemma filter_twice {A} (f : A -> bool) (l : list A) :
  filter f (filter f l) = filter f l.
Proof.
  induction l as [|x l IH]; simpl; [reflexivity|].
  destruct (f x) eqn:E; simpl; [now rewrite E, IH|exact IH].
Qed.

Lemma stripped_lines (text : str) :
  splitlines (stripped_of text)
  = filter (fun line => negb (blank_line line)) (splitlines text).
Proof.
  unfold stripped_of. apply splitlines_join_exact.
  apply forallb_forall. intros l Hl. apply filter_In in Hl as [Hl Hnb].
  rewrite Hnb, andb_true_r.
  exact (proj1 (Forall_forall _ _) (splitlines_lines_clean text) l Hl).
Qed.

Section LoaderMore.

Variable lower : str -> str.
Variable read_excel : UploadedFile -> result DataFrame.
Variable decode_utf_8_sig decode_utf_8 : bytes -> result str.
Variable sniff : str -> result N.
Variable read_csv : str -> option N -> result DataFrame.

Local Abbreviation load :=
  (load_table lower read_excel decode_utf_8_sig decode_utf_8 sniff read_csv).
Local Abbreviation parse := (parse_text sniff read_csv).

Lemma parse_text_returns (text : str) : exists df, parse text = Ok df.
Proof.
  unfold parse_text.
  destruct (read_csv (stripped_of text) _) as [df|e]; cbn [try_except]; [eauto|].
  apply fallbacks_never_raise.
Qed.

(** X1: whatever is uploaded (nothing, a spreadsheet, a text) and whatever
    the libraries do, [load_table] returns a table and raises nothing; it
    shows at most one message, and when it shows one the table it returns
    is the empty table. *)
Theorem load_table_always_returns (uploaded_file : option UploadedFile) :
  exists df,
    snd (load uploaded_file) = Ok df
    /\ (List.length (fst (load uploaded_file)) <= 1)%nat
    /\ (fst (load uploaded_file) <> [] -> df = empty_frame).
Proof.
  destruct uploaded_file as [f|]; [|exists empty_frame; simpl; auto].
  destruct (is_excel_name lower f) eqn:Hname.
  - unfold load_table. rewrite Hname.
    destruct (read_excel f) as [df|e]; cbn [fst snd].
    + exists df. split; [reflexivity|]. split; [simpl; lia|]. now intros [].
    + exists empty_frame. split; [reflexivity|]. split; [simpl; lia|reflexivity].
  - destruct (load_table_text lower read_excel decode_utf_8_sig decode_utf_8
                sniff read_csv f Hname) as (text & _ & ->).
    destruct (parse_text_returns text) as (df & Hdf).
    exists df. cbn [fst snd]. split; [exact Hdf|]. split; [simpl; lia|].
    now intros [].
Qed.

(** X2: the text handed to the sniffer and to the reader holds exactly the
    lines of the decoded text that are not blank, in their order; cleaning
    it again changes nothing, so that loading the cleaned text gives what
    loading the text gives. *)
Theorem stripped_text_keeps_nonblank_lines (text : str) :
  splitlines (stripped_of text)
  = filter (fun line => negb (blank_line line)) (splitlines text)
  /\ stripped_of (stripped_of text) = stripped_of text
  /\ parse (stripped_of text) = parse text.
Proof.
  assert (Hidem : stripped_of (stripped_of text) = stripped_of text).
  { unfold stripped_of at 1. rewrite stripped_lines, filter_twice. reflexivity. }
  split; [apply stripped_lines|]. split; [exact Hidem|].
  unfold parse_text. now rewrite Hidem.
Qed.

(** X3: lines ended by a carriage return and a newline load as the same
    lines ended by a newline do. *)
Theorem line_endings_do_not_matter (ls : list str) :
  forallb clean_line ls = true ->
  stripped_of (join [13; 10]%N ls) = stripped_of (join [10%N] ls)
  /\ parse (join [13; 10]%N ls) = parse (join [10%N] ls).
Proof.
  intros H.
  assert (Hs : stripped_of (join [13; 10]%N ls) = stripped_of (join [10%N] ls)).
  { unfold stripped_of.
    rewrite (splitlines_join [13; 10]%N ls (or_intror eq_refl) H).
    now rewrite (splitlines_join [10%N] ls (or_introl eq_refl) H). }
  split; [exact Hs|]. unfold parse_text. now rewrite Hs.
Qed.

End LoaderMore.

Lemma line_endings_do_not_matter_witness :
  forallb clean_line [lit "a;b"; lit "1;2"; []] = true
  /\ parse_text no_sniff semicolon_only (join [13; 10]%N [lit "a;b"; lit "1;2"; []])
     = parse_text no_sniff semicolon_only (join [10%N] [lit "a;b"; lit "1;2"; []]).
Proof.
  split; [reflexivity|].
  exact (proj2 (line_endings_do_not_matter no_sniff semicolon_only
                  [lit "a;b"; lit "1;2"; []] eq_refl)).
Defined.

(* ================================================================== *)
(** * Further properties of the checks and the normalisation (lines 90-114) *)

Lemma existsb_str_In (r : str) (l : list str) :
  existsb (str_eqb r) l = true <-> In r l.
Proof.
  rewrite existsb_exists. split.
  - intros (x & Hx & E). apply str_eqb_eq in E. now subst.
  - intros H. exists r. split; [exact H|apply str_eqb_refl].
Qed.

Lemma col_index_In (r : str) (l : list str) :
  In r l -> exists i, col_index r l = Some i.
Proof.
  induction l as [|c l IH]; simpl; [intros []|].
  intros Hin. destruct (str_eqb c r) eqn:E; [eauto|].
  destruct Hin as [Hc|Hin].
  - subst c. now rewrite str_eqb_refl in E.
  - destruct (IH Hin) as (i & ->). simpl. eauto.
Qed.

Lemma in_map2 {A B C} (f : A -> B -> C) (l : list A) (m : list B) (x : C) :
  In x (map2 f l m) -> exists a b, In a l /\ In b m /\ x = f a b.
Proof.
  revert m; induction l as [|a l IH]; intros [|b m]; simpl; try tauto.
  intros [<-|H].
  - exists a, b. auto.
  - destruct (IH m H) as (a' & b' & Ha & Hb & ->). exists a', b'. auto.
Qed.

Lemma map2_length_le {A B C} (f : A -> B -> C) (l : list A) (m : list B) :
  (List.length (map2 f l m) <= List.length l)%nat.
Proof.
  revert m; induction l as [|a l IH]; intros [|b m]; simpl; try lia.
  specialize (IH m). lia.
Qed.

Lemma length_replace_nth {A} (i : nat) (v : A) (l : list A) :
  List.length (replace_nth i v l) = List.length l.
Proof.
  revert i; induction l as [|x l IH]; intros [|i]; simpl; try reflexivity.
  now rewrite IH.
Qed.

Section ScriptFacts.

Variable lower : str -> str.
Variable read_excel : UploadedFile -> result DataFrame.
Variable decode_utf_8_sig decode_utf_8 : bytes -> result str.
Variable sniff : str -> result N.
Variable read_csv : str -> option N -> result DataFrame.
Variable to_datetime to_numeric : list cell -> partial (list cell).

Local Abbreviation encs := (encodings decode_utf_8_sig decode_utf_8).
Local Abbreviation load :=
  (load_table lower read_excel decode_utf_8_sig decode_utf_8 sniff read_csv).
Local Abbreviation opened :=
  (file_table lower read_excel decode_utf_8_sig decode_utf_8 sniff read_csv
              to_datetime to_numeric).
Local Abbreviation norm := (normalise lower to_datetime to_numeric).

Lemma normalise_no_rows (df : DataFrame) :
  rows df = [] -> norm df = pret (Stopped st_error_parse).
Proof. intros H. unfold normalise. now rewrite (df_empty_no_rows df H). Qed.

(** X4: a file that cannot be read ends in the message that it could not
    be parsed, and in a stop of the script, never in an exception: a text
    for which the first parse and the four retries raise; a spreadsheet
    whose reader raises (after the message of that failure); and any file
    that loads as a table without rows, such as a header alone. *)
Theorem unreadable_file_stops (f : UploadedFile) :
  (forall text,
      is_excel_name lower f = false ->
      decode_loop encs (read f) = Some text ->
      (exists e, read_csv (stripped_of text) (sniffed_sep sniff (stripped_of text))
                 = Raise e) ->
      all_raise read_csv (stripped_of text) trial_seps ->
      opened f = ([], pret (Stopped st_error_parse)))
  /\ (forall e,
        is_excel_name lower f = true ->
        read_excel f = Raise e ->
        opened f = ([st_error_excel e], pret (Stopped st_error_parse)))
  /\ (forall df,
        snd (load (Some f)) = Ok df ->
        rows df = [] ->
        snd (opened f) = pret (Stopped st_error_parse)).
Proof.
  split; [|split].
  - intros text Hname Hdec (e & Hfirst) Hall.
    unfold file_table.
    destruct (load_table_text lower read_excel decode_utf_8_sig decode_utf_8
                sniff read_csv f Hname) as (text' & Hdec' & ->).
    assert (text' = text) by congruence. subst text'.
    unfold parse_text. rewrite Hfirst. cbn [try_except].
    now rewrite (fallbacks_all_fail read_csv _ _ Hall).
  - intros e Hname He. unfold file_table, load_table.
    now rewrite Hname, He.
  - intros df Hload Hrows. unfold file_table.
    destruct (load (Some f)) as [shown loaded]. cbn [snd] in *.
    rewrite Hload. cbn [snd]. now apply normalise_no_rows.
Qed.

(** X5: a table with rows that lacks one of the columns date, amount and
    description, once its labels are stripped and lower-cased, stops the
    script with the message on the columns; no cell is coerced. *)
Theorem missing_column_stops (df : DataFrame) (r : str) :
  df_empty df = false ->
  In r required ->
  ~ In r (clean_header lower df) ->
  norm df = pret (Stopped st_error_columns).
Proof.
  intros Hne Hr Hmiss. unfold normalise. rewrite Hne.
  destruct (has_required _) eqn:E; [|reflexivity].
  exfalso. apply Hmiss. unfold has_required in E.
  rewrite forallb_forall in E. specialize (E r Hr).
  now apply existsb_str_In in E.
Qed.

Hypothesis to_datetime_cells :
  forall column out,
    to_datetime column = Some (Ok out) -> forallb timestamp_or_nan out = true.
Hypothesis to_numeric_cells :
  forall column out,
    to_numeric column = Some (Ok out) -> forallb number_or_nan out = true.

(** X6: when the coercions leave timestamps, numbers and missing values,
    a table with distinct cleaned labels that passes the checks comes out
    normalised: it keeps its cleaned header, every row that is left holds
    one cell per column, a timestamp under date and a number under amount,
    and no row is added. *)
Theorem normalise_gives_normalised (df df' : DataFrame) :
  distinct (clean_header lower df) = true ->
  well_formed df = true ->
  norm df = Some (Ok (Continue df')) ->
  normalised df' = true
  /\ columns df' = clean_header lower df
  /\ (List.length (rows df') <= List.length (rows df))%nat.
Proof.
  intros _ Hwf Hrun. unfold normalise in Hrun.
  destruct (df_empty df); [discriminate Hrun|].
  set (cols := map (fun c => lower (strip c)) (columns df)) in *.
  destruct (has_required _) eqn:Hreq; [|discriminate Hrun].
  cbn [negb] in Hrun. unfold has_required in Hreq. cbn [columns] in Hreq.
  rewrite forallb_forall in Hreq.
  assert (Hd : exists i, col_index (lit "date") cols = Some i).
  { apply col_index_In, existsb_str_In, Hreq. now left. }
  assert (Ha : exists j, col_index (lit "amount") cols = Some j).
  { apply col_index_In, existsb_str_In, Hreq. right. now left. }
  destruct Hd as (i & Hi). destruct Ha as (j & Hj).
  assert (Hij : j <> i)
    by (apply (col_index_distinct _ _ _ _ _ Hj Hi); discriminate).
  pinv Hrun. rename a into date_in, Ha into Hdate_in.
  pinv Hrun. rename a into dout, Ha into Hdout.
  pinv Hrun. rename a into amount_in, Ha into Hamount_in.
  pinv Hrun. rename a into nout, Ha into Hnout.
  pinv Hrun. rename a into dropped, Ha into Hdrop.
  injection Hrun as <-.
  unfold set_col in Hdrop. cbn [columns rows] in Hdrop.
  rewrite Hi in Hdrop. cbn [columns rows] in Hdrop. rewrite Hj in Hdrop.
  unfold dropna_date_amount, get_col, lift in Hdrop. cbn [columns rows] in Hdrop.
  rewrite Hi, Hj in Hdrop. cbn [pbind pret] in Hdrop.
  injection Hdrop as <-.
  set (rows1 := map2 (fun r v => replace_nth i v r) (rows df) dout) in *.
  set (rows2 := map2 (fun r v => replace_nth j v r) rows1 nout) in *.
  unfold filter_rows. cbn [columns rows]. rewrite map2_map_both, select_map.
  assert (Hrows2 : forall r, In r rows2 ->
            List.length r = List.length cols
            /\ timestamp_or_nan (nth i r NaN) = true
            /\ number_or_nan (nth j r NaN) = true).
  { intros r Hr. apply in_map2 in Hr as (r1 & b & Hr1 & Hb & ->).
    apply in_map2 in Hr1 as (r0 & a & Hr0 & Hain & ->).
    assert (Hlen : List.length r0 = List.length cols).
    { unfold well_formed in Hwf. rewrite forallb_forall in Hwf.
      pose proof (Hwf r0 Hr0) as Hl. apply Nat.eqb_eq in Hl.
      rewrite Hl. unfold cols. now rewrite length_map. }
    rewrite !length_replace_nth. split; [exact Hlen|]. split.
    - rewrite nth_replace_nth_neq by exact Hij.
      rewrite nth_replace_nth_eq
        by (rewrite Hlen; now apply (col_index_lt _ _ _ Hi)).
      pose proof (to_datetime_cells _ _ Hdout) as Hall.
      rewrite forallb_forall in Hall. now apply Hall.
    - rewrite nth_replace_nth_eq
        by (rewrite length_replace_nth, Hlen; now apply (col_index_lt _ _ _ Hj)).
      pose proof (to_numeric_cells _ _ Hnout) as Hall.
      rewrite forallb_forall in Hall. now apply Hall. }
  split; [|split].
  - unfold normalised, filter_rows, cell_of. cbn [columns rows]. rewrite Hi, Hj.
    apply forallb_forall. intros r Hr. apply filter_In in Hr as [Hr Hkeep].
    destruct (Hrows2 r Hr) as (Hlen & Hts & Hnum).
    rewrite Hlen, Nat.eqb_refl. cbn [andb].
    apply andb_true_iff in Hkeep as [Hk1 Hk2].
    destruct (nth i r NaN); try discriminate;
      destruct (nth j r NaN); try discriminate; reflexivity.
  - reflexivity.
  - cbn [rows filter_rows].
    etransitivity; [apply filter_length_le|].
    etransitivity; [apply map2_length_le|]. apply map2_length_le.
Qed.

End ScriptFacts.

Lemma missing_column_stops_witness :
  df_empty no_amount_table = false
  /\ In (lit "amount") required
  /\ ~ In (lit "amount") (clean_header ascii_lower no_amount_table)
  /\ normalise ascii_lower to_datetime_iso to_numeric_plain no_amount_table
     = pret (Stopped st_error_columns).
Proof.
  assert (Hin : In (lit "amount") required) by (right; now left).
  assert (Hmiss : ~ In (lit "amount") (clean_header ascii_lower no_amount_table)).
  { vm_compute. intros [H|[H|[]]]; discriminate H. }
  split; [reflexivity|]. split; [exact Hin|]. split; [exact Hmiss|].
  exact (missing_column_stops ascii_lower to_datetime_iso to_numeric_plain
           no_amount_table (lit "amount") eq_refl Hin Hmiss).
Defined.

Lemma pmap_cells {A B} (f : A -> partial B) (P : B -> bool) (l : list A)
      (out : list B) :
  (forall x y, f x = Some (Ok y) -> P y = true) ->
  pmap f l = Some (Ok out) ->
  forallb P out = true.
Proof.
  intros HP. revert out; induction l as [|x l IH]; intros out H; simpl in H.
  - injection H as <-. reflexivity.
  - pinv H. pinv H. injection H as <-. simpl.
    now rewrite (HP x a Ha), (IH a0 Ha0).
Qed.

Lemma to_datetime_iso_cells (column out : list cell) :
  to_datetime_iso column = Some (Ok out) -> forallb timestamp_or_nan out = true.
Proof.
  apply pmap_cells. intros [| s | | |] y H; try discriminate H.
  - injection H as <-. reflexivity.
  - destruct (parse_iso_date s); [|discriminate H]. injection H as <-. reflexivity.
Qed.

Lemma to_numeric_plain_cells (column out : list cell) :
  to_numeric_plain column = Some (Ok out) -> forallb number_or_nan out = true.
Proof.
  apply pmap_cells. intros [| s | | |] y H; try discriminate H.
  - injection H as <-. reflexivity.
  - destruct (parse_decimal s); [|discriminate H]. injection H as <-. reflexivity.
Qed.

Lemma normalise_gives_normalised_witness :
  distinct (clean_header ascii_lower sample_raw) = true
  /\ well_formed sample_raw = true
  /\ normalise ascii_lower to_datetime_iso to_numeric_plain sample_raw
     = Some (Ok (Continue sample_df))
  /\ normalised sample_df = true
  /\ (List.length (rows sample_df) <= List.length (rows sample_raw))%nat.
Proof.
  assert (Hrun : normalise ascii_lower to_datetime_iso to_numeric_plain sample_raw
                 = Some (Ok (Continue sample_df))) by (vm_compute; reflexivity).
  split; [reflexivity|]. split; [reflexivity|]. split; [exact Hrun|].
  destruct (normalise_gives_normalised ascii_lower to_datetime_iso to_numeric_plain
              to_datetime_iso_cells to_numeric_plain_cells
              sample_raw sample_df eq_refl eq_refl Hrun) as (Hn & _ & Hlen).
  split; assumption.
Defined.

(* ================================================================== *)
(** * Further properties of the budgeting section (lines 145-244) *)

(** ** The months of the table and the selected month (lines 151-165) *)

Lemma period_eqb_eq (p q : period) : period_eqb p q = true <-> p = q.
Proof.
  destruct p as [a b], q as [c d]. unfold period_eqb. simpl.
  rewrite andb_true_iff, !Z.eqb_eq. split.
  - intros [-> ->]. reflexivity.
  - intros H. injection H as -> ->. auto.
Qed.

Lemma period_ltb_trans (p q r : period) :
  period_ltb p q = true -> period_ltb q r = true -> period_ltb p r = true.
Proof.
  destruct p as [a b], q as [c d], r as [e f]. unfold period_ltb. simpl.
  rewrite !orb_true_iff, !andb_true_iff, !Z.ltb_lt, !Z.eqb_eq. lia.
Qed.

Lemma period_total (p q : period) :
  period_eqb p q = false -> period_ltb p q = false -> period_ltb q p = true.
Proof.
  destruct p as [a b], q as [c d]. unfold period_ltb, period_eqb. simpl.
  rewrite orb_true_iff, andb_true_iff, Z.ltb_lt, Z.eqb_eq.
  rewrite andb_false_iff, orb_false_iff, andb_false_iff.
  rewrite !Z.ltb_ge, !Z.eqb_neq, Z.ltb_lt. lia.
Qed.

Lemma in_insert_period (x p : period) (l : list period) :
  In x (insert_period p l) <-> x = p \/ In x l.
Proof.
  induction l as [|q l IH]; simpl; [intuition congruence|].
  destruct (period_eqb p q) eqn:E.
  - apply period_eqb_eq in E. subst q. simpl. intuition congruence.
  - destruct (period_ltb p q); simpl; [intuition congruence|].
    rewrite IH. intuition congruence.
Qed.

Lemma increasing_cons (q : period) (l : list period) :
  increasing (q :: l) = true <->
  increasing l = true /\ (forall x, In x l -> period_ltb q x = true).
Proof.
  revert q; induction l as [|r l IH]; intros q.
  - simpl. split; [intros _; split; [reflexivity|intros x []]|reflexivity].
  - change (increasing (q :: r :: l)) with (period_ltb q r && increasing (r :: l)).
    rewrite andb_true_iff. split.
    + intros [Hqr Hinc]. split; [exact Hinc|].
      intros x [<-|Hx]; [exact Hqr|].
      apply (period_ltb_trans q r x Hqr). now apply (proj1 (IH r) Hinc).
    + intros [Hinc Hall]. split; [apply Hall; now left|exact Hinc].
Qed.

Lemma increasing_insert (p : period) (l : list period) :
  increasing l = true -> increasing (insert_period p l) = true.
Proof.
  induction l as [|q l IH]; intros H; [reflexivity|].
  cbn [insert_period]. destruct (period_eqb p q) eqn:E; [exact H|].
  destruct (period_ltb p q) eqn:L.
  - change (increasing (p :: q :: l)) with (period_ltb p q && increasing (q :: l)).
    now rewrite L, H.
  - apply increasing_cons in H as [Hinc Hall]. apply increasing_cons.
    split; [now apply IH|].
    intros x Hx. apply in_insert_period in Hx as [->|Hx]; [|now apply Hall].
    now apply period_total.
Qed.

(** X7: the months offered by the selector are those of the dates of the
    table, each once and in increasing order. *)
Theorem unique_months_sorted (column : list cell) :
  increasing (sorted_unique column) = true
  /\ forall p, In p (sorted_unique column) <-> In (Month p) column.
Proof.
  induction column as [|c column [IHs IHm]]; [split; [reflexivity|simpl; tauto]|].
  destruct c as [| s | q | d | m];
    try (split; [exact IHs|];
         intros p; rewrite IHm; simpl; split;
         [now right|intros [H|H]; [discriminate H|exact H]]).
  cbn [sorted_unique]. split; [now apply increasing_insert|].
  intros p. rewrite in_insert_period, IHm. simpl. split.
  - intros [->|H]; [now left|now right].
  - intros [H|H]; [injection H as ->; now left|now right].
Qed.

Lemma increasing_last (l : list period) (p : period) :
  increasing l = true ->
  nth_error l (List.length l - 1) = Some p ->
  In p l /\ forall x, In x l -> period_leb x p = true.
Proof.
  induction l as [|q l IH]; intros Hinc Hlast; [discriminate Hlast|].
  destruct l as [|r l].
  - simpl in Hlast. injection Hlast as <-. split; [now left|].
    intros x [<-|[]]. unfold period_leb.
    now rewrite (proj2 (period_eqb_eq q q) eq_refl).
  - apply increasing_cons in Hinc as [Hinc Hall].
    replace (List.length (q :: r :: l) - 1)%nat with (S (List.length (r :: l) - 1))
      in Hlast by (simpl; lia).
    cbn [nth_error] in Hlast. destruct (IH Hinc Hlast) as [Hin Hmax].
    split; [now right|].
    intros x [<-|Hx]; [|now apply Hmax].
    unfold period_leb. rewrite (Hall p Hin). apply orb_true_r.
Qed.

(** X8: without a choice of the user the selector always returns a month.
    When the table holds a date, it is the latest month of the table: a
    month of some row, and no row is dated in a later month.  When the
    table holds no date, it is the current month. *)
Theorem default_month_is_latest (inp : inputs) (df : DataFrame) :
  sel_period inp = None ->
  exists p,
    selected_period inp df = Some p
    /\ (forall r m, In r (rows df) ->
          month_cell (cell_of df (lit "date") r) = Month m ->
          period_leb m p = true
          /\ exists r', In r' (rows df)
                        /\ month_cell (cell_of df (lit "date") r') = Month p)
    /\ ((forall r, In r (rows df) ->
           forall m, month_cell (cell_of df (lit "date") r) <> Month m) ->
        p = today inp).
Proof.
  intros Hsel. unfold selected_period, unique_months_of. rewrite Hsel.
  set (col := map (fun r => month_cell (cell_of df (lit "date") r)) (rows df)).
  destruct (unique_months_sorted col) as [Hinc Hmem].
  destruct (sorted_unique col) as [|q l] eqn:E.
  - exists (today inp). cbn [snd]. split; [reflexivity|]. split; [|reflexivity].
    intros r m Hr Hm. exfalso.
    apply (proj2 (Hmem m)). unfold col. apply in_map_iff. eauto.
  - cbn [snd]. rewrite <- E in *.
    destruct (nth_error (sorted_unique col) (List.length (sorted_unique col) - 1))
      as [p|] eqn:Hlast.
    + exists p. split; [reflexivity|].
      destruct (increasing_last _ p Hinc Hlast) as [Hin Hmax]. split.
      * intros r m Hr Hm. split.
        -- apply Hmax, Hmem. unfold col. apply in_map_iff. eauto.
        -- apply Hmem in Hin. unfold col in Hin.
           apply in_map_iff in Hin as (r' & Hr' & Hin). eauto.
      * intros Hnone. exfalso. apply Hmem in Hin. unfold col in Hin.
        apply in_map_iff in Hin as (r' & Hr' & Hin). exact (Hnone r' Hin p Hr').
    + exfalso. apply nth_error_None in Hlast. rewrite E in Hlast. simpl in Hlast. lia.
Qed.

Lemma default_month_is_latest_witness :
  sel_period default_inputs = None
  /\ exists p, selected_period default_inputs sample_df = Some p.
Proof.
  split; [reflexivity|].
  destruct (default_month_is_latest default_inputs sample_df eq_refl)
    as (p & Hp & _).
  exists p. exact Hp.
Defined.

(** ** The progress values (lines 181 and 234) *)

Lemma Qltb_true (a b : Q) : Qltb a b = true <-> a < b.
Proof.
  unfold Qltb. rewrite negb_true_iff. split.
  - intros H. apply Qnot_le_lt. intros Hle. apply Qle_bool_iff in Hle. congruence.
  - intros H. destruct (Qle_bool b a) eqn:E; [|reflexivity].
    apply Qle_bool_iff in E. exfalso. exact (Qlt_not_le _ _ H E).
Qed.

Lemma Qltb_false (a b : Q) : Qltb a b = false <-> b <= a.
Proof.
  unfold Qltb. rewrite negb_false_iff. apply Qle_bool_iff.
Qed.

(** X9: for an amount spent that is not negative the progress expression
    returns a value between 0 and 1, the range [st.progress] accepts: the
    quotient of spent and limit while spent is below a positive limit, and
    1 from the limit on. *)
Theorem progress_within_bounds (spent limit : Q) :
  0 <= spent ->
  exists p,
    progress_ratio spent limit = Ok p
    /\ 0 <= p /\ p <= 1
    /\ (0 < limit -> spent < limit -> p == spent / limit)
    /\ (0 < limit -> limit <= spent -> p == 1).
Proof.
  intros Hspent. unfold progress_ratio.
  destruct (Qltb 0 limit) eqn:Hpos.
  - apply Qltb_true in Hpos. unfold py_div.
    destruct (Qeq_bool limit 0) eqn:E0.
    { apply Qeq_bool_iff in E0. rewrite E0 in Hpos.
      exfalso. exact (Qlt_irrefl 0 Hpos). }
    assert (Hr : 0 <= spent / limit).
    { apply Qle_shift_div_l; [exact Hpos|]. now rewrite Qmult_0_l. }
    eexists. split; [reflexivity|]. unfold min_1.
    destruct (Qltb (spent / limit) 1) eqn:Hlt.
    + apply Qltb_true in Hlt. split; [exact Hr|]. split; [now apply Qlt_le_weak|].
      split; [intros _ _; reflexivity|].
      intros _ Hle. exfalso. apply (Qlt_not_le _ _ Hlt).
      apply Qle_shift_div_l; [exact Hpos|]. now rewrite Qmult_1_l.
    + apply Qltb_false in Hlt. split; [discriminate|]. split; [apply Qle_refl|].
      split; [|intros _ _; reflexivity].
      intros _ Hlt'. exfalso. apply (Qlt_not_le (spent / limit) 1); [|exact Hlt].
      apply Qlt_shift_div_r; [exact Hpos|]. now rewrite Qmult_1_l.
  - exists 0. split; [reflexivity|]. split; [apply Qle_refl|]. split; [discriminate|].
    apply Qltb_false in Hpos.
    split; intros Hl; exfalso; exact (Qlt_not_le _ _ Hl Hpos).
Qed.

Lemma progress_within_bounds_witness :
  0 <= 78.70
  /\ exists p, progress_ratio 78.70 150 = Ok p /\ 0 <= p /\ p <= 1.
Proof.
  assert (H : 0 <= 78.70) by discriminate.
  split; [exact H|].
  destruct (progress_within_bounds 78.70 150 H) as (p & Hp & H0 & H1 & _).
  exists p. repeat split; assumption.
Defined.

(** ** The report on a normalised table (lines 168-241) *)

Lemma progress_ratio_bounds (spent limit p : Q) :
  0 <= spent -> progress_ratio spent limit = Ok p -> 0 <= p /\ p <= 1.
Proof.
  intros Hspent. unfold progress_ratio, py_div.
  destruct (Qltb 0 limit) eqn:Hpos.
  - apply Qltb_true in Hpos.
    destruct (Qeq_bool limit 0); [discriminate|]. intros H. injection H as <-.
    unfold min_1. destruct (Qltb (spent / limit) 1) eqn:Hlt.
    + apply Qltb_true in Hlt. split; [|now apply Qlt_le_weak].
      apply Qle_shift_div_l; [exact Hpos|]. now rewrite Qmult_0_l.
    + split; [discriminate|apply Qle_refl].
  - intros H. injection H as <-. split; [apply Qle_refl|discriminate].
Qed.

Lemma with_month_length (df : DataFrame) (r : list cell) :
  List.length r = List.length (columns df) ->
  List.length (with_month df r) = List.length (columns_with_month df).
Proof.
  intros H. unfold with_month, columns_with_month.
  destruct (col_index (lit "year_month") (columns df)).
  - now rewrite length_replace_nth.
  - rewrite !length_app, H. reflexivity.
Qed.

Lemma nth_map2_replace (i : nat) (rs : list (list cell)) (v : list cell) :
  List.length v = List.length rs ->
  (forall r, In r rs -> (i < List.length r)%nat) ->
  map (fun r => nth i r NaN) (map2 (fun r x => replace_nth i x r) rs v) = v.
Proof.
  revert v; induction rs as [|r rs IH]; intros [|x v] Hlen Hrs;
    try discriminate Hlen; [reflexivity|].
  simpl. rewrite (nth_replace_nth_eq i x NaN r) by (apply Hrs; now left).
  f_equal. apply IH; [now injection Hlen|].
  intros r' Hr'. apply Hrs. now right.
Qed.

Lemma nth_map2_append (n : nat) (rs : list (list cell)) (v : list cell) :
  List.length v = List.length rs ->
  (forall r, In r rs -> List.length r = n) ->
  map (fun r => nth n r NaN) (map2 (fun r x => r ++ [x]) rs v) = v.
Proof.
  revert v; induction rs as [|r rs IH]; intros [|x v] Hlen Hrs;
    try discriminate Hlen; [reflexivity|].
  pose proof (Hrs r (or_introl eq_refl)) as Hr.
  simpl. rewrite app_nth2 by lia.
  replace (n - List.length r)%nat with 0%nat by lia. simpl.
  f_equal. apply IH; [now injection Hlen|].
  intros r' Hr'. apply Hrs. now right.
Qed.

(** Reading a column right after setting it gives the values set. *)
Lemma get_col_set_col_same (df : DataFrame) (label : str) (v : list cell) :
  (forall r, In r (rows df) -> List.length r = List.length (columns df)) ->
  List.length v = List.length (rows df) ->
  exists i,
    col_index label (columns (set_col df label v)) = Some i
    /\ map (fun r => nth i r NaN) (rows (set_col df label v)) = v.
Proof.
  intros Hwf Hlen. unfold set_col.
  destruct (col_index label (columns df)) as [i|] eqn:E; cbn [columns rows].
  - exists i. split; [exact E|]. apply nth_map2_replace; [exact Hlen|].
    intros r Hr. rewrite (Hwf r Hr). now apply (col_index_lt _ _ _ E).
  - exists (List.length (columns df)). split; [now apply col_index_app_new|].
    now apply nth_map2_append.
Qed.

Lemma map2_length_eq {A B C} (f : A -> B -> C) (l : list A) (m : list B) :
  List.length m = List.length l -> List.length (map2 f l m) = List.length l.
Proof.
  revert m; induction l as [|a l IH]; intros [|b m] H; simpl;
    try reflexivity; try discriminate H.
  f_equal. apply IH. now injection H.
Qed.

Lemma set_col_rows_length (df : DataFrame) (label : str) (v : list cell) :
  List.length v = List.length (rows df) ->
  List.length (rows (set_col df label v)) = List.length (rows df).
Proof.
  intros H. unfold set_col.
  destruct (col_index label (columns df)); cbn [rows]; now apply map2_length_eq.
Qed.

Lemma filter_filter_and {A} (f g : A -> bool) (l : list A) :
  filter g (filter f l) = filter (fun x => f x && g x) l.
Proof.
  induction l as [|x l IH]; simpl; [reflexivity|].
  destruct (f x); simpl; [|exact IH]. destruct (g x); now rewrite IH.
Qed.

Lemma expense_rows_filter (df : DataFrame) (p : period) :
  filter (below_zero df) (filter (in_period df p) (rows df))
  = filter (is_expense_in df p) (rows df).
Proof.
  rewrite filter_filter_and. apply filter_ext.
  intros r. now rewrite is_expense_in_split.
Qed.

Lemma expense_amounts_negative (df : DataFrame) (p : period) (c : cell) :
  In c (expense_amounts df p) -> exists q, c = Num q /\ q < 0.
Proof.
  unfold expense_amounts. intros H. apply in_map_iff in H as (r & <- & Hr).
  apply filter_In in Hr as [_ Hneg]. unfold below_zero in Hneg.
  destruct (cell_of df (lit "amount") r); try discriminate Hneg.
  exists q. split; [reflexivity|]. now apply Qltb_true.
Qed.

Lemma spent_positive (df : DataFrame) (p : period) (c : cell) :
  In c (negated (expense_amounts df p)) -> exists q, c = Num q /\ 0 <= q.
Proof.
  unfold negated. intros H. apply in_map_iff in H as (a & <- & Ha).
  destruct (expense_amounts_negative df p a Ha) as (q & -> & Hq).
  exists (- q). split; [reflexivity|].
  unfold Qle, Qlt in *. destruct q as [n d]. simpl in *. lia.
Qed.

Lemma series_sum_nonneg (l : list cell) :
  (forall c, In c l -> exists q, c = Num q /\ 0 <= q) -> 0 <= series_sum l.
Proof.
  induction l as [|c l IH]; intros H; [apply Qle_refl|].
  destruct (H c (or_introl eq_refl)) as (q & -> & Hq). simpl.
  rewrite <- (Qplus_0_l 0). apply Qplus_le_compat; [exact Hq|].
  apply IH. intros c Hc. apply H. now right.
Qed.

Lemma select_sum_le (l : list cell) (mask : list bool) :
  (forall c, In c l -> exists q, c = Num q /\ 0 <= q) ->
  0 <= series_sum (select l mask)
  /\ series_sum (select l mask) <= series_sum l.
Proof.
  revert mask; induction l as [|c l IH]; intros mask H.
  - destruct mask; simpl; split; apply Qle_refl.
  - destruct mask as [|b mask];
      [split; [apply Qle_refl|exact (series_sum_nonneg (c :: l) H)]|].
    destruct (H c (or_introl eq_refl)) as (q & -> & Hq).
    destruct (IH mask (fun c Hc => H c (or_intror Hc))) as [H0 Hle].
    destruct b; simpl.
    + split; [|now apply Qplus_le_r].
      rewrite <- (Qplus_0_l 0). now apply Qplus_le_compat.
    + split; [exact H0|].
      rewrite <- (Qplus_0_l (series_sum (select l mask))).
      now apply Qplus_le_compat.
Qed.

Lemma select_map_cells {A B} (f : A -> B) (l : list A) (mask : list bool) :
  map f (select l mask) = select (map f l) mask.
Proof.
  revert mask; induction l as [|x l IH]; intros [|b mask]; simpl; try reflexivity.
  destruct b; simpl; now rewrite IH.
Qed.

Lemma series_sum_negated (l : list cell) :
  series_sum (negated l) == - series_sum l.
Proof.
  induction l as [|c l IH]; simpl; [reflexivity|].
  destruct c; simpl; try exact IH. rewrite IH. ring.
Qed.

Lemma expenses_of_month_data (df : DataFrame) (p : period) :
  normalised df = true ->
  expenses_of {| columns := columns_with_month df;
                 rows := map (with_month df) (filter (in_period df p) (rows df)) |}
  = Some (Ok (expenses_frame df p)).
Proof.
  intros H.
  destruct (normalised_inv df H) as (i & j & Hi & Hj & Hrows).
  destruct (columns_with_month_indices df j Hj) as (Hj' & k & Hk).
  assert (Hcells : forall r, In r (rows df) ->
            nth j (with_month df r) NaN = cell_of df (lit "amount") r).
  { intros r Hr. destruct (Hrows r Hr) as (Hlen & _ & _).
    exact (proj2 (with_month_cells df r i j k Hi Hj Hk Hlen)). }
  unfold expenses_of. unfold get_col at 1. cbn [columns rows].
  rewrite Hj'. cbn [lift pbind]. rewrite map_map.
  rewrite (map_ext_in _ (cell_of df (lit "amount")))
    by (intros r Hr; apply Hcells; apply filter_In in Hr; tauto).
  rewrite lt_zero_normalised
    by (intros r Hr; apply filter_In in Hr;
        destruct (Hrows r (proj1 Hr)) as (_ & _ & Hq); exact Hq).
  cbn [pbind]. unfold filter_rows. cbn [columns rows].
  rewrite select_map_map. fold (expense_rows df p).
  unfold get_col. cbn [columns expense_rows]. rewrite Hj'. cbn [lift pbind].
  unfold expenses_frame, expense_amounts.
  unfold expense_rows at 2. cbn [rows]. rewrite map_map.
  rewrite (map_ext_in (fun r => nth j (with_month df r) NaN)
                      (cell_of df (lit "amount")));
    [reflexivity|].
  intros r Hr. apply Hcells. apply filter_In in Hr as [Hr _].
  apply filter_In in Hr. tauto.
Qed.

(** The [spent] column of the expenses: its index and its cells. *)
Lemma expenses_frame_spent (df : DataFrame) (p : period) :
  normalised df = true ->
  exists i,
    col_index (lit "spent") (columns (expenses_frame df p)) = Some i
    /\ map (fun r => nth i r NaN) (rows (expenses_frame df p))
       = negated (expense_amounts df p).
Proof.
  intros H. destruct (normalised_inv df H) as (i & j & _ & _ & Hrows).
  unfold expenses_frame. apply get_col_set_col_same.
  - cbn [rows columns expense_rows]. intros r Hr.
    apply in_map_iff in Hr as (r0 & <- & Hr0).
    apply with_month_length. apply filter_In in Hr0 as [Hr0 _].
    apply filter_In in Hr0 as [Hr0 _]. now destruct (Hrows r0 Hr0).
  - unfold negated, expense_amounts. cbn [rows expense_rows].
    now rewrite !length_map.
Qed.

Lemma pmap_results {A B} (f : A -> partial B) (l : list A) (out : list B) :
  pmap f l = Some (Ok out) -> Forall2 (fun x y => f x = Some (Ok y)) l out.
Proof.
  revert out; induction l as [|x l IH]; intros out H; simpl in H.
  - injection H as <-. constructor.
  - pinv H. pinv H. injection H as <-. constructor; [exact Ha|now apply IH].
Qed.

Lemma pmap_first_failure {A B} (f : A -> partial B) (pre post : list A)
      (x : A) (e : exn) :
  (forall y, In y pre -> exists b, f y = Some (Ok b)) ->
  f x = Some (Raise e) ->
  pmap f (pre ++ x :: post) = Some (Raise e).
Proof.
  intros Hpre Hx. induction pre as [|y pre IH]; simpl.
  - now rewrite Hx.
  - destruct (Hpre y (or_introl eq_refl)) as (b & Hb). rewrite Hb. cbn [pbind].
    rewrite IH by (intros z Hz; apply Hpre; now right). reflexivity.
Qed.

Section ReportFacts.

Variable lower : str -> str.
Variable regex : Type.
Variable re_compile : str -> partial regex.
Variable re_search : regex -> str -> bool.

Local Abbreviation rule_loop := (eval_rule lower regex re_compile re_search).
Local Abbreviation eval := (evaluate lower regex re_compile re_search).
Local Abbreviation run := (budgeting lower regex re_compile re_search).

(** The evaluation of a normalised table, with the month's expenses and
    the warning written out. *)
Lemma evaluate_normalised_full (inp : inputs) (df : DataFrame) (p : period) :
  normalised df = true ->
  selected_period inp df = Some p ->
  eval inp (table_with_month df)
  = let expenses := expenses_frame df p in
    let warned :=
      fst (unique_months_of inp
             (map (fun r => month_cell (cell_of df (lit "date") r)) (rows df))) in
    let total := series_sum (negated (expense_amounts df p)) in
    progress <- lift (progress_ratio total (overall_budget inp)) ;;
    if df_empty expenses then
      pret {| shown := warned ++ [st_info_no_expenses];
              period_used := p; expenses_used := expenses;
              total_spend := total; progress := progress;
              rule_results := [] |}
    else
      results <- pmap (rule_loop expenses) (rules inp) ;;
      pret {| shown := warned;
              period_used := p; expenses_used := expenses;
              total_spend := total; progress := progress;
              rule_results := results |}.
Proof.
  intros H Hsel.
  destruct (normalised_inv df H) as (i & j & Hi & Hj & Hrows).
  destruct (columns_with_month_indices df j Hj) as (Hj' & k & Hk).
  destruct (expenses_frame_spent df p H) as (s & Hs & Hspent).
  cbv zeta.
  unfold evaluate, table_with_month. unfold get_col at 1. cbn [columns rows].
  rewrite Hk. cbn [lift pbind]. rewrite map_map.
  rewrite (map_ext_in _ (fun r => month_cell (cell_of df (lit "date") r)))
    by (intros r Hr; destruct (Hrows r Hr) as (Hlen & _ & _);
        exact (proj1 (with_month_cells df r i j k Hi Hj Hk Hlen))).
  unfold selected_period in Hsel.
  destruct (unique_months_of inp _) as [warned options] eqn:Eopt.
  cbn [fst snd] in *. unfold selectbox. rewrite Hsel. cbn [pret pbind].
  unfold filter_rows. cbn [columns rows]. rewrite map_map.
  rewrite select_map_map.
  change (filter _ (rows df)) with (filter (in_period df p) (rows df)).
  rewrite (expenses_of_month_data df p H). cbn [pbind].
  unfold get_col. rewrite Hs, Hspent.
  destruct (df_empty (expenses_frame df p)) eqn:Eempty;
    cbn [negb pret pbind lift]; [|reflexivity].
  assert (Hnil : negated (expense_amounts df p) = []).
  { rewrite <- Hspent. unfold df_empty in Eempty.
    destruct (columns (expenses_frame df p)); [discriminate Hs|].
    destruct (rows (expenses_frame df p)); [reflexivity|discriminate Eempty]. }
  rewrite Hnil. reflexivity.
Qed.

Lemma evaluate_no_period (inp : inputs) (df : DataFrame) :
  normalised df = true ->
  selected_period inp df = None ->
  eval inp (table_with_month df) = None.
Proof.
  intros H Hsel.
  destruct (normalised_inv df H) as (i & j & Hi & Hj & Hrows).
  destruct (columns_with_month_indices df j Hj) as (Hj' & k & Hk).
  unfold evaluate, table_with_month. unfold get_col at 1. cbn [columns rows].
  rewrite Hk. cbn [lift pbind]. rewrite map_map.
  rewrite (map_ext_in _ (fun r => month_cell (cell_of df (lit "date") r)))
    by (intros r Hr; destruct (Hrows r Hr) as (Hlen & _ & _);
        exact (proj1 (with_month_cells df r i j k Hi Hj Hk Hlen))).
  unfold selected_period in Hsel.
  destruct (unique_months_of inp _) as [warned options] eqn:Eopt.
  cbn [fst snd] in *. unfold selectbox. rewrite Hsel. reflexivity.
Qed.

(** What a report of the budgeting section holds. *)
Lemma report_of_normalised (inp : inputs) (df df' : DataFrame)
      (r : budget_report) :
  normalised df = true ->
  run inp df = (df', Some (Ok r)) ->
  let p := period_used r in
  selected_period inp df = Some p
  /\ expenses_used r = expenses_frame df p
  /\ total_spend r = series_sum (negated (expense_amounts df p))
  /\ progress_ratio (total_spend r) (overall_budget inp) = Ok (progress r)
  /\ (if df_empty (expenses_frame df p)
      then rule_results r = []
      else pmap (rule_loop (expenses_frame df p)) (rules inp)
           = Some (Ok (rule_results r))).
Proof.
  intros H Hrun.
  rewrite (budgeting_normalised lower regex re_compile re_search inp df H) in Hrun.
  cbv zeta in Hrun. fold (table_with_month df) in Hrun.
  destruct (selected_period inp df) as [p|] eqn:Hsel.
  - rewrite (evaluate_normalised_full inp df p H Hsel) in Hrun.
    cbv zeta in Hrun.
    destruct (progress_ratio _ (overall_budget inp)) as [pr|e] eqn:Epr;
      cbn [lift pbind] in Hrun; [|discriminate Hrun].
    destruct (df_empty (expenses_frame df p)) eqn:Eempty.
    + unfold pret in Hrun. injection Hrun as _ <-. cbn.
      rewrite Eempty. repeat split; try reflexivity. exact Epr.
    + destruct (pmap _ (rules inp)) as [[results|e]|] eqn:Eres;
        cbn [pbind] in Hrun; try discriminate Hrun.
      unfold pret in Hrun. injection Hrun as _ <-. cbn.
      rewrite Eempty. repeat split; try reflexivity; assumption.
  - rewrite (evaluate_no_period inp df H Hsel) in Hrun. discriminate Hrun.
Qed.

Lemma eval_rule_spent (expenses : DataFrame) (ru : rule) (i : nat)
      (cat : str) (cat_spent limit cat_progress : Q) (kws : list str)
      (matched : DataFrame) :
  col_index (lit "spent") (columns expenses) = Some i ->
  rule_loop expenses ru
  = Some (Ok (Evaluated cat cat_spent limit cat_progress kws matched)) ->
  exists mask,
    matched = filter_rows expenses mask
    /\ cat_spent
       = series_sum (select (map (fun r => nth i r NaN) (rows expenses)) mask)
    /\ progress_ratio cat_spent limit = Ok cat_progress.
Proof.
  intros Hi H. unfold eval_rule in H.
  destruct (keywords_of lower _) as [|k ks]; [discriminate H|].
  pinv H. pinv H.
  rewrite (cat_spent_value expenses a0 i Hi) in H. cbn [pret pbind] in H.
  pinv H. injection H as <- <- <- <- <- <-.
  exists a0. split; [reflexivity|]. split.
  - now rewrite select_map_cells.
  - unfold lift in Ha1. congruence.
Qed.

(** X10: in a report on a normalised table the total spend is not
    negative, the overall progress lies between 0 and 1, and for every
    rule that was evaluated the category spend lies between 0 and the
    total spend and its progress between 0 and 1. *)
Theorem report_within_bounds (inp : inputs) (df df' : DataFrame)
        (r : budget_report) :
  normalised df = true ->
  run inp df = (df', Some (Ok r)) ->
  0 <= total_spend r
  /\ 0 <= progress r /\ progress r <= 1
  /\ Forall (fun res =>
               match res with
               | NoKeywords _ => True
               | Evaluated _ cat_spent _ cat_progress _ _ =>
                   0 <= cat_spent /\ cat_spent <= total_spend r
                   /\ 0 <= cat_progress /\ cat_progress <= 1
               end) (rule_results r).
Proof.
  intros H Hrun.
  destruct (report_of_normalised inp df df' r H Hrun)
    as (_ & _ & Htotal & Hprogress & Hrules).
  set (p := period_used r) in *.
  assert (Hcells := spent_positive df p).
  assert (H0 : 0 <= total_spend r)
    by (rewrite Htotal; now apply series_sum_nonneg).
  split; [exact H0|].
  destruct (progress_ratio_bounds _ _ _ H0 Hprogress) as [Hlo Hhi].
  split; [exact Hlo|]. split; [exact Hhi|].
  destruct (df_empty (expenses_frame df p)); [rewrite Hrules; constructor|].
  destruct (expenses_frame_spent df p H) as (i & Hi & Hspent).
  apply pmap_results in Hrules.
  induction Hrules as [|ru res rus ress Hres _ IH]; constructor; [|exact IH].
  destruct res as [cat|cat s l pr kws m]; [exact I|].
  destruct (eval_rule_spent _ _ i _ _ _ _ _ _ Hi Hres) as (mask & _ & Hs & Hpr).
  rewrite Hspent in Hs.
  destruct (select_sum_le _ mask Hcells) as [Hs0 Hsle].
  rewrite <- Hs in Hs0, Hsle. rewrite Htotal.
  split; [exact Hs0|]. split; [exact Hsle|].
  exact (progress_ratio_bounds _ _ _ Hs0 Hpr).
Qed.

(** X11: the report is on the selected month; its expenses are the rows
    of that month with a negative amount, one row each, and the total
    spend is the sum of their amounts with the sign turned. *)
Theorem report_counts_the_months_expenses (inp : inputs) (df df' : DataFrame)
        (r : budget_report) :
  normalised df = true ->
  run inp df = (df', Some (Ok r)) ->
  let spent_rows := filter (is_expense_in df (period_used r)) (rows df) in
  selected_period inp df = Some (period_used r)
  /\ List.length (rows (expenses_used r)) = List.length spent_rows
  /\ total_spend r == - series_sum (map (cell_of df (lit "amount")) spent_rows).
Proof.
  intros H Hrun. cbv zeta.
  destruct (report_of_normalised inp df df' r H Hrun)
    as (Hsel & Hexp & Htotal & _).
  set (p := period_used r) in *.
  split; [exact Hsel|]. split.
  - rewrite Hexp. unfold expenses_frame.
    rewrite set_col_rows_length;
      unfold negated, expense_amounts; cbn [rows expense_rows];
      rewrite !length_map; [|reflexivity].
    now rewrite expense_rows_filter.
  - rewrite Htotal, series_sum_negated. unfold expense_amounts.
    rewrite expense_rows_filter. reflexivity.
Qed.

(** X12: when the month has expenses, the report holds one result for
    each rule, in the order of the rules, and the result of a rule is that
    of the loop body on the month's expenses and this rule alone. *)
Theorem rules_evaluated_one_by_one (inp : inputs) (df df' : DataFrame)
        (r : budget_report) :
  normalised df = true ->
  run inp df = (df', Some (Ok r)) ->
  df_empty (expenses_used r) = false ->
  Forall2 (fun ru res => rule_loop (expenses_used r) ru = Some (Ok res))
          (rules inp) (rule_results r).
Proof.
  intros H Hrun Hempty.
  destruct (report_of_normalised inp df df' r H Hrun)
    as (_ & Hexp & _ & _ & Hrules).
  rewrite <- Hexp in Hrules. rewrite Hempty in Hrules.
  now apply pmap_results.
Qed.

(** X13: on a normalised table with distinct labels and some text in its
    description column: when the month has expenses and a rule raises an
    error, the section ends with the error of the first such rule, whatever
    rules follow it; the clean-up of line 244 is not reached, so the table
    keeps the helper column. *)
Theorem first_failing_rule_ends_section (inp : inputs) (df : DataFrame)
        (p : period) (pre post : list rule) (ru : rule) (e : exn) :
  normalised df = true ->
  distinct (columns df) = true ->
  has_text (map (cell_of df (lit "description")) (rows df)) = true ->
  selected_period inp df = Some p ->
  df_empty (expenses_frame df p) = false ->
  rules inp = pre ++ ru :: post ->
  (forall y, In y pre ->
             exists res, rule_loop (expenses_frame df p) y = Some (Ok res)) ->
  rule_loop (expenses_frame df p) ru = Some (Raise e) ->
  run inp df = (table_with_month df, Some (Raise e))
  /\ exists k,
       col_index (lit "year_month") (columns (table_with_month df)) = Some k.
Proof.
  intros H _ _ Hsel Hempty Hrules Hpre Hru. split.
  - rewrite (budgeting_normalised lower regex re_compile re_search inp df H).
    cbv zeta. fold (table_with_month df).
    rewrite (evaluate_normalised_full inp df p H Hsel). cbv zeta.
    destruct (progress_ratio_returns
                (series_sum (negated (expense_amounts df p)))
                (overall_budget inp)) as (pr & ->).
    cbn [lift pbind]. rewrite Hempty, Hrules.
    now rewrite (pmap_first_failure _ pre post ru e Hpre Hru).
  - destruct (normalised_inv df H) as (_ & j & _ & Hj & _).
    destruct (columns_with_month_indices df j Hj) as (_ & k & Hk).
    now exists k.
Qed.

End ReportFacts.

Lemma report_within_bounds_witness :
  normalised sample_df = true
  /\ snd (budgeting_ascii default_inputs sample_df) = Some (Ok sample_report)
  /\ 0 <= total_spend sample_report
  /\ 0 <= progress sample_report /\ progress sample_report <= 1.
Proof.
  assert (Hn : normalised sample_df = true) by (vm_compute; reflexivity).
  assert (Hrun : budgeting_ascii default_inputs sample_df
                 = (fst (budgeting_ascii default_inputs sample_df),
                    Some (Ok sample_report)))
    by (vm_compute; reflexivity).
  split; [exact Hn|]. split; [now rewrite Hrun|].
  destruct (report_within_bounds ascii_lower fragment re_compile_fragment
              re_search_fragment default_inputs sample_df _ sample_report
              Hn Hrun) as (H0 & Hlo & Hhi & _).
  repeat split; assumption.
Defined.

Lemma report_counts_the_months_expenses_witness :
  normalised sample_df = true
  /\ snd (budgeting_ascii default_inputs sample_df) = Some (Ok sample_report)
  /\ selected_period default_inputs sample_df
     = Some (period_used sample_report).
Proof.
  assert (Hn : normalised sample_df = true) by (vm_compute; reflexivity).
  assert (Hrun : budgeting_ascii default_inputs sample_df
                 = (fst (budgeting_ascii default_inputs sample_df),
                    Some (Ok sample_report)))
    by (vm_compute; reflexivity).
  split; [exact Hn|]. split; [now rewrite Hrun|].
  exact (proj1 (report_counts_the_months_expenses ascii_lower fragment
                  re_compile_fragment re_search_fragment default_inputs
                  sample_df _ sample_report Hn Hrun)).
Defined.

Lemma rules_evaluated_one_by_one_witness :
  normalised sample_df = true
  /\ snd (budgeting_ascii default_inputs sample_df) = Some (Ok sample_report)
  /\ df_empty (expenses_used sample_report) = false
  /\ Forall2 (fun ru res =>
                eval_rule_ascii (expenses_used sample_report) ru
                = Some (Ok res))
             default_rules (rule_results sample_report).
Proof.
  assert (Hn : normalised sample_df = true) by (vm_compute; reflexivity).
  assert (Hrun : budgeting_ascii default_inputs sample_df
                 = (fst (budgeting_ascii default_inputs sample_df),
                    Some (Ok sample_report)))
    by (vm_compute; reflexivity).
  assert (He : df_empty (expenses_used sample_report) = false)
    by (vm_compute; reflexivity).
  split; [exact Hn|]. split; [now rewrite Hrun|]. split; [exact He|].
  exact (rules_evaluated_one_by_one ascii_lower fragment re_compile_fragment
           re_search_fragment default_inputs sample_df _ sample_report
           Hn Hrun He).
Defined.

Lemma first_failing_rule_ends_section_witness :
  normalised sample_df = true
  /\ distinct (columns sample_df) = true
  /\ has_text (map (cell_of sample_df (lit "description")) (rows sample_df))
     = true
  /\ selected_period (inputs_with (default_rules ++ [starred_rule])) sample_df
     = Some (2024, 9)%Z
  /\ snd (budgeting_ascii (inputs_with (default_rules ++ [starred_rule]))
                          sample_df)
     = Some (Raise re_error).
Proof.
  assert (Hn : normalised sample_df = true) by (vm_compute; reflexivity).
  assert (Hsel : selected_period (inputs_with (default_rules ++ [starred_rule]))
                                 sample_df = Some (2024, 9)%Z)
    by (vm_compute; reflexivity).
  assert (Hd : distinct (columns sample_df) = true)
    by (vm_compute; reflexivity).
  assert (Ht : has_text (map (cell_of sample_df (lit "description"))
                             (rows sample_df)) = true)
    by (vm_compute; reflexivity).
  split; [exact Hn|]. split; [exact Hd|]. split; [exact Ht|].
  split; [exact Hsel|].
  destruct (first_failing_rule_ends_section ascii_lower fragment
              re_compile_fragment re_search_fragment
              (inputs_with (default_rules ++ [starred_rule])) sample_df
              (2024, 9)%Z default_rules [] starred_rule re_error Hn Hd Ht Hsel)
    as [Hrun _].
  - vm_compute; reflexivity.
  - reflexivity.
  - intros y Hy. simpl in Hy.
    destruct Hy as [<-|[<-|[<-|[]]]]; eexists; vm_compute; reflexivity.
  - vm_compute; reflexivity.
  - unfold budgeting_ascii. now rewrite Hrun.
Defined.

(** ** The keywords of a rule (lines 214-222) *)

Lemma lstrip_nil_iff (t : str) : lstrip t = [] <-> forallb isspace t = true.
Proof.
  split; [|apply lstrip_spaces].
  induction t as [|c t IH]; simpl; [reflexivity|].
  destruct (isspace c); [exact IH|discriminate].
Qed.

Lemma lstrip_head (t u : str) (c : N) : lstrip t = c :: u -> isspace c = false.
Proof.
  induction t as [|d t IH]; simpl; [discriminate|].
  destruct (isspace d) eqn:E; [exact IH|]. intros H. injection H as <- _. exact E.
Qed.

Lemma lstrip_idem (t : str) : lstrip (lstrip t) = lstrip t.
Proof.
  destruct (lstrip t) as [|c u] eqn:E; [reflexivity|].
  simpl. now rewrite (lstrip_head t u c E).
Qed.

Lemma lstrip_snoc_nonspace (a : str) (c : N) :
  isspace c = false -> lstrip (a ++ [c]) = lstrip a ++ [c].
Proof.
  intros H. induction a as [|d a IH]; simpl; [now rewrite H|].
  destruct (isspace d); [exact IH|reflexivity].
Qed.

Lemma strip_nil_iff (t : str) : strip t = [] <-> forallb isspace t = true.
Proof.
  unfold strip, rstrip. split.
  - intros H. apply lstrip_nil_iff.
    destruct (lstrip t) as [|c u] eqn:E; [reflexivity|].
    assert (Hc := lstrip_head t u c E).
    simpl in H. rewrite (lstrip_snoc_nonspace (rev u) c Hc) in H.
    rewrite rev_app_distr in H. discriminate H.
  - intros H. now rewrite (lstrip_spaces t H).
Qed.

Lemma strip_idem (t : str) : strip (strip t) = strip t.
Proof.
  unfold strip at 1.
  assert (Hl : lstrip (strip t) = strip t).
  { unfold strip, rstrip. destruct (lstrip t) as [|c u] eqn:E; [reflexivity|].
    assert (Hc := lstrip_head t u c E).
    simpl. rewrite (lstrip_snoc_nonspace (rev u) c Hc), rev_app_distr.
    simpl. now rewrite Hc. }
  rewrite Hl. unfold strip, rstrip. now rewrite rev_involutive, lstrip_idem.
Qed.

Lemma lstrip_piece (t : str) : exists a, t = a ++ lstrip t.
Proof.
  induction t as [|c t (a & IH)]; [now exists []|]. simpl.
  destruct (isspace c); [|now exists []].
  exists (c :: a). simpl. now rewrite <- IH.
Qed.

Lemma strip_piece (t : str) : piece_of (strip t) t.
Proof.
  destruct (lstrip_piece t) as (a & Ha).
  destruct (lstrip_piece (rev (lstrip t))) as (b & Hb).
  exists a, (rev b). unfold strip, rstrip.
  rewrite <- rev_app_distr, <- Hb, rev_involutive. exact Ha.
Qed.

Lemma split_pieces (sep : N) (s : str) :
  match split sep s with
  | [] => False
  | h :: r =>
      (exists b, s = h ++ b) /\ ~ In sep h
      /\ forall t, In t r -> piece_of t s /\ ~ In sep t
  end.
Proof.
  induction s as [|c s IH]; simpl.
  - split; [now exists []|]. split; [tauto|]. intros t [].
  - destruct (N.eqb_spec c sep) as [->|Hc].
    + split; [now exists (sep :: s)|]. split; [tauto|].
      destruct (split sep s) as [|h r]; [contradiction|].
      destruct IH as ((b & Hb) & Hh & Hr).
      intros t [<-|Ht].
      * split; [|exact Hh]. exists [sep], b. simpl. now rewrite <- Hb.
      * destruct (Hr t Ht) as ((a & b' & Hab) & Hsep). split; [|exact Hsep].
        exists (sep :: a), b'. simpl. now rewrite <- Hab.
    + destruct (split sep s) as [|h r]; [contradiction|].
      destruct IH as ((b & Hb) & Hh & Hr).
      split; [exists b; simpl; now rewrite <- Hb|].
      split; [simpl; intros [E|E]; [now apply Hc|now apply Hh]|].
      intros t Ht. destruct (Hr t Ht) as ((a & b' & Hab) & Hsep).
      split; [|exact Hsep]. exists (c :: a), b'. simpl. now rewrite <- Hab.
Qed.

Lemma split_piece (sep : N) (s t : str) :
  In t (split sep s) -> piece_of t s /\ ~ In sep t.
Proof.
  intros Ht. assert (H := split_pieces sep s).
  destruct (split sep s) as [|h r]; [contradiction|].
  destruct H as ((b & Hb) & Hh & Hr).
  destruct Ht as [<-|Ht]; [|now apply Hr].
  split; [|exact Hh]. now exists [], b.
Qed.

Lemma piece_of_trans (a b c : str) : piece_of a b -> piece_of b c -> piece_of a c.
Proof.
  intros (x & y & ->) (u & v & ->). exists (u ++ x), (y ++ v).
  now rewrite <- !app_assoc.
Qed.

Lemma piece_of_In (t x : str) (c : N) : piece_of t x -> In c t -> In c x.
Proof.
  intros (a & b & ->) H. apply in_or_app. right. apply in_or_app. now left.
Qed.

Lemma split_only_separators (s : str) :
  forallb (forallb isspace) (split 44 s) = only_separators s.
Proof.
  induction s as [|c s IH]; [reflexivity|].
  unfold only_separators in *. simpl.
  destruct (c =? 44)%N eqn:Ec.
  - simpl. now rewrite orb_true_r.
  - rewrite orb_false_r, <- IH.
    destruct (split 44 s) as [|h r] eqn:E; [now destruct (split_nonempty 44 s)|].
    simpl. now rewrite andb_assoc.
Qed.

Lemma filter_nil_forallb {A} (f : A -> bool) (l : list A) :
  filter f l = [] <-> forallb (fun x => negb (f x)) l = true.
Proof.
  induction l as [|x l IH]; simpl; [tauto|].
  destruct (f x); simpl; [split; discriminate|exact IH].
Qed.

Lemma str_eqb_nil (t : str) : str_eqb t [] = true <-> t = [].
Proof. destruct t; simpl; split; congruence. Qed.

Lemma keywords_of_nil_iff (lower : str -> str) (s : str) :
  keywords_of lower (strip s) = [] <-> only_separators s = true.
Proof.
  rewrite keywords_of_tokens, tokens_strip, <- split_only_separators.
  split.
  - intros H. apply map_eq_nil in H. apply filter_nil_forallb in H.
    rewrite forallb_forall in *. intros t Ht.
    specialize (H (strip t) (in_map strip _ t Ht)).
    rewrite negb_involutive in H. apply str_eqb_nil in H.
    now apply strip_nil_iff.
  - intros H. rewrite forallb_forall in H.
    replace (filter _ _) with (@nil str); [reflexivity|].
    symmetry. apply filter_nil_forallb. apply forallb_forall.
    intros u Hu. apply in_map_iff in Hu as (t & <- & Ht).
    rewrite negb_involutive. apply str_eqb_nil. apply strip_nil_iff.
    now apply H.
Qed.

(** X14: a rule is reported as having no keywords exactly when its
    keyword text is missing or made of commas and white space only; the
    expenses are then not read and no pattern is compiled. *)
Theorem rule_without_keywords (lower : str -> str) (regex : Type)
        (re_compile : str -> partial regex) (re_search : regex -> str -> bool)
        (expenses : DataFrame) (ru : rule) :
  let cat := match strip (or_empty (category ru)) with
             | [] => lit "(Unnamed)"
             | c => c
             end in
  if only_separators (or_empty (keywords ru))
  then eval_rule lower regex re_compile re_search expenses ru
       = Some (Ok (NoKeywords cat))
  else forall label,
         eval_rule lower regex re_compile re_search expenses ru
         <> Some (Ok (NoKeywords label)).
Proof.
  cbv zeta. unfold eval_rule.
  destruct (only_separators (or_empty (keywords ru))) eqn:E.
  - apply (keywords_of_nil_iff lower) in E. now rewrite E.
  - destruct (keywords_of lower (strip (or_empty (keywords ru))))
      as [|k ks] eqn:Ek.
    + apply keywords_of_nil_iff in Ek. congruence.
    + intros label H. pinv H. pinv H. pinv H. pinv H. discriminate H.
Qed.

(** X15: every keyword of a rule is the lower-cased form of a piece of
    the keyword text that is not empty, has no white space at either end
    and holds no comma. *)
Theorem keywords_are_trimmed_pieces (lower : str -> str) (kw_str : str) :
  exists pieces,
    keywords_of lower kw_str = map lower pieces
    /\ Forall (fun t => t <> [] /\ strip t = t /\ ~ In 44%N t
                        /\ piece_of t kw_str) pieces.
Proof.
  exists (filter (fun k => negb (str_eqb k [])) (map strip (split 44 kw_str))).
  split; [apply keywords_of_tokens|].
  apply Forall_forall. intros u Hu.
  apply filter_In in Hu as [Hu Hne]. apply in_map_iff in Hu as (t & <- & Ht).
  destruct (split_piece 44 kw_str t Ht) as [Hpiece Hsep].
  split; [|split; [apply strip_idem|split]].
  - intros E. rewrite E in Hne. discriminate Hne.
  - intros Hin. apply Hsep. exact (piece_of_In _ _ _ (strip_piece t) Hin).
  - exact (piece_of_trans _ _ _ (strip_piece t) Hpiece).
Qed.

(** ** Upper and lower case (lines 219-227) *)

Lemma isspace_lower (c : N) : isspace (ascii_lower_char c) = isspace c.
Proof.
  unfold ascii_lower_char.
  destruct ((65 <=? c) && (c <=? 90))%N eqn:E; [|reflexivity].
  apply andb_true_iff in E as [E1 E2].
  apply N.leb_le in E1. apply N.leb_le in E2. unfold isspace.
  repeat match goal with
         | |- context [(?a <=? ?b)%N] =>
             destruct (N.leb_spec a b); try lia
         | |- context [(?a =? ?b)%N] =>
             destruct (N.eqb_spec a b); try lia
         end;
    reflexivity.
Qed.

Lemma comma_lower (c : N) : (ascii_lower_char c =? 44)%N = (c =? 44)%N.
Proof.
  unfold ascii_lower_char.
  destruct ((65 <=? c) && (c <=? 90))%N eqn:E; [|reflexivity].
  apply andb_true_iff in E as [E1 E2].
  apply N.leb_le in E1. apply N.leb_le in E2.
  destruct (N.eqb_spec (c + 32) 44), (N.eqb_spec c 44); try reflexivity; lia.
Qed.

Lemma lower_char_idem (c : N) :
  ascii_lower_char (ascii_lower_char c) = ascii_lower_char c.
Proof.
  unfold ascii_lower_char.
  destruct ((65 <=? c) && (c <=? 90))%N eqn:E; [|now rewrite E].
  apply andb_true_iff in E as [E1 E2].
  apply N.leb_le in E1. apply N.leb_le in E2.
  destruct (N.leb_spec 65 (c + 32)), (N.leb_spec (c + 32) 90);
    try reflexivity; simpl; lia.
Qed.

Lemma ascii_lower_idem (s : str) : ascii_lower (ascii_lower s) = ascii_lower s.
Proof.
  unfold ascii_lower. rewrite map_map. apply map_ext. apply lower_char_idem.
Qed.

Lemma lstrip_lower (s : str) : lstrip (ascii_lower s) = ascii_lower (lstrip s).
Proof.
  induction s as [|c s IH]; [reflexivity|]. simpl.
  rewrite isspace_lower. destruct (isspace c); [exact IH|reflexivity].
Qed.

Lemma strip_lower (s : str) : strip (ascii_lower s) = ascii_lower (strip s).
Proof.
  unfold strip, rstrip. rewrite lstrip_lower. unfold ascii_lower.
  rewrite <- map_rev. fold (ascii_lower (rev (lstrip s))).
  rewrite lstrip_lower. unfold ascii_lower. now rewrite map_rev.
Qed.

Lemma split_lower (s : str) :
  split 44 (ascii_lower s) = map ascii_lower (split 44 s).
Proof.
  induction s as [|c s IH]; [reflexivity|]. simpl.
  rewrite comma_lower, IH.
  destruct (c =? 44)%N; [reflexivity|].
  destruct (split 44 s); reflexivity.
Qed.

(** The keywords do not depend on the case of the keyword text. *)
Lemma keywords_of_lower (s : str) :
  keywords_of ascii_lower (strip (ascii_lower s))
  = keywords_of ascii_lower (strip s).
Proof.
  unfold keywords_of. rewrite strip_lower, split_lower, filter_map_comm, map_map.
  rewrite (filter_ext (fun k => negb (str_eqb (strip (ascii_lower k)) []))
                      (fun k => negb (str_eqb (strip k) []))).
  - apply map_ext. intros k. now rewrite strip_lower, ascii_lower_idem.
  - intros k. rewrite strip_lower. now destruct (strip k).
Qed.

(** X16: the case of the letters of a keyword text and of the
    descriptions does not matter: two rules whose keyword texts differ
    only in the case of ASCII letters are evaluated alike on any expenses,
    and description columns that differ only in that case give the same
    texts to search in. *)
Theorem keyword_case_does_not_matter (regex : Type)
        (re_compile : str -> partial regex) (re_search : regex -> str -> bool)
        (expenses : DataFrame) (ru ru' : rule) (d d' : list cell) :
  category ru' = category ru ->
  budget ru' = budget ru ->
  ascii_lower (or_empty (keywords ru')) = ascii_lower (or_empty (keywords ru)) ->
  map lower_cell d' = map lower_cell d ->
  eval_rule ascii_lower regex re_compile re_search expenses ru'
  = eval_rule ascii_lower regex re_compile re_search expenses ru
  /\ desc_lower_of ascii_lower d' = desc_lower_of ascii_lower d.
Proof.
  intros Hcat Hbudget Hkw Hd. split.
  - unfold eval_rule. rewrite Hcat, Hbudget.
    rewrite <- (keywords_of_lower (or_empty (keywords ru'))), Hkw.
    now rewrite keywords_of_lower.
  - assert (Hl : forall x, desc_lower_of ascii_lower (map lower_cell x)
                           = desc_lower_of ascii_lower x).
    { intros x. unfold desc_lower_of. rewrite map_map. apply map_ext.
      intros [| s | | |]; try reflexivity. simpl. apply ascii_lower_idem. }
    now rewrite <- (Hl d'), Hd, Hl.
Qed.

Lemma keyword_case_does_not_matter_witness :
  eval_rule_ascii (expenses_frame sample_df (2024, 9)%Z)
    {| category := Some (lit "Transport"); keywords := Some (lit "UBER, Shell");
       budget := Some 150 |}
  = eval_rule_ascii (expenses_frame sample_df (2024, 9)%Z)
      {| category := Some (lit "Transport"); keywords := Some (lit "uber, shell");
         budget := Some 150 |}.
Proof.
  exact (proj1 (keyword_case_does_not_matter fragment re_compile_fragment
                  re_search_fragment (expenses_frame sample_df (2024, 9)%Z)
                  {| category := Some (lit "Transport");
                     keywords := Some (lit "uber, shell");
                     budget := Some 150 |}
                  {| category := Some (lit "Transport");
                     keywords := Some (lit "UBER, Shell");
                     budget := Some 150 |}
                  [Text (lit "UBER Ride")] [Text (lit "uber ride")]
                  eq_refl eq_refl eq_refl eq_refl)).
Defined.

(** ** Rules whose keywords are plain words (lines 213-241) *)

Lemma pmap_total {A B} (f : A -> partial B) (l : list A) :
  (forall x, In x l -> exists y, f x = Some (Ok y)) ->
  exists ys, pmap f l = Some (Ok ys) /\ List.length ys = List.length l.
Proof.
  induction l as [|x l IH]; intros H; simpl; [now exists []|].
  destruct (H x (or_introl eq_refl)) as (y & Hy).
  destruct (IH (fun z Hz => H z (or_intror Hz))) as (ys & Hys & Hlen).
  exists (y :: ys). rewrite Hy, pbind_ret, Hys, pbind_ret. simpl.
  split; [reflexivity|now rewrite Hlen].
Qed.

Lemma has_text_column (df : DataFrame) (label : str) :
  has_text (map (cell_of df label) (rows df)) = true ->
  exists d, col_index label (columns df) = Some d.
Proof.
  unfold has_text, cell_of.
  destruct (col_index label (columns df)) as [d|]; [now exists d|].
  intros H. apply existsb_exists in H as (c & Hc & Htext).
  apply in_map_iff in Hc as (r & <- & _). discriminate Htext.
Qed.

Lemma expenses_frame_column (df : DataFrame) (p : period) (label : str)
      (d : nat) :
  col_index label (columns df) = Some d ->
  col_index label (columns (expenses_frame df p)) = Some d.
Proof.
  intros H.
  assert (Hm : col_index label (columns_with_month df) = Some d).
  { unfold columns_with_month.
    destruct (col_index (lit "year_month") (columns df));
      [exact H|now apply col_index_app_old]. }
  unfold expenses_frame, set_col. cbn [columns expense_rows].
  destruct (col_index (lit "spent") (columns_with_month df));
    cbn [columns]; [exact Hm|now apply col_index_app_old].
Qed.

(** X17: on a normalised table with distinct labels whose description
    column holds some text, with a month selected and rules whose keywords
    are plain words, the budgeting section raises no error: it runs to its
    end, drops the helper column and reports one result for each rule when
    the month has expenses. *)
Theorem plain_rules_never_fail (inp : inputs) (df : DataFrame) (p : period) :
  normalised df = true ->
  distinct (columns df) = true ->
  has_text (map (cell_of df (lit "description")) (rows df)) = true ->
  selected_period inp df = Some p ->
  (forall ru, In ru (rules inp) ->
     forallb plain (keywords_of ascii_lower (strip (or_empty (keywords ru))))
     = true) ->
  exists r,
    budgeting_ascii inp df
    = (drop_col (table_with_month df) (lit "year_month"), Some (Ok r))
    /\ (df_empty (expenses_frame df p) = false ->
        List.length (rule_results r) = List.length (rules inp)).
Proof.
  intros H _ Htext Hsel Hplain. unfold budgeting_ascii.
  rewrite (budgeting_normalised _ _ _ _ inp df H). cbv zeta.
  fold (table_with_month df).
  rewrite (evaluate_normalised_full _ _ _ _ inp df p H Hsel). cbv zeta.
  destruct (progress_ratio_returns
              (series_sum (negated (expense_amounts df p)))
              (overall_budget inp)) as (pr & ->).
  cbn [lift pbind].
  destruct (df_empty (expenses_frame df p)) eqn:Eempty.
  - eexists. split; [reflexivity|discriminate].
  - destruct (has_text_column df _ Htext) as (d & Hd).
    destruct (expenses_frame_spent df p H) as (i & Hi & _).
    assert (Hdesc := expenses_frame_column df p _ d Hd).
    destruct (pmap_total
                (eval_rule ascii_lower fragment re_compile_fragment
                           re_search_fragment (expenses_frame df p))
                (rules inp)) as (results & Hres & Hlen).
    { intros ru Hru.
      destruct (keywords_of ascii_lower (strip (or_empty (keywords ru))))
        as [|k ks] eqn:Ek.
      - unfold eval_rule. rewrite Ek. eexists. reflexivity.
      - destruct (eval_rule_plain_keywords (expenses_frame df p) ru
                    (map (fun r => nth d r NaN) (rows (expenses_frame df p))) i)
          as (cat & s & l & pg & Hrule).
        + rewrite Ek. discriminate.
        + now apply Hplain.
        + unfold get_col. now rewrite Hdesc.
        + exact Hi.
        + eexists. exact Hrule. }
    rewrite Hres, pbind_ret. eexists. split; [reflexivity|].
    intros _. exact Hlen.
Qed.

Lemma plain_rules_never_fail_witness :
  normalised sample_df = true
  /\ distinct (columns sample_df) = true
  /\ has_text (map (cell_of sample_df (lit "description")) (rows sample_df))
     = true
  /\ selected_period default_inputs sample_df = Some (2024, 9)%Z
  /\ exists r,
       snd (budgeting_ascii default_inputs sample_df) = Some (Ok r)
       /\ List.length (rule_results r) = 3%nat.
Proof.
  assert (Hn : normalised sample_df = true) by (vm_compute; reflexivity).
  assert (Ht : has_text (map (cell_of sample_df (lit "description"))
                             (rows sample_df)) = true)
    by (vm_compute; reflexivity).
  assert (Hsel : selected_period default_inputs sample_df = Some (2024, 9)%Z)
    by (vm_compute; reflexivity).
  assert (Hd : distinct (columns sample_df) = true)
    by (vm_compute; reflexivity).
  split; [exact Hn|]. split; [exact Hd|]. split; [exact Ht|].
  split; [exact Hsel|].
  destruct (plain_rules_never_fail default_inputs sample_df (2024, 9)%Z
              Hn Hd Ht Hsel) as (r & Hrun & Hlen).
  - intros ru Hru. simpl in Hru.
    destruct Hru as [<-|[<-|[<-|[]]]]; vm_compute; reflexivity.
  - exists r. split; [now rewrite Hrun|].
    apply Hlen. vm_compute; reflexivity.
Defined.
